(** * JavaScriptCore: executable allocator and WebAssembly module record

    A shallow embedding of
      - [jit/ExecutableAllocator.cpp]   (the demand executable allocator), and
      - [wasm/js/WebAssemblyModuleRecord.cpp]   ([link] and [evaluate]),
    followed by the properties established about them.

    Conventions.
      - Unsigned machine integers are values of [Z] with the wrap-around
        written out ([wrap]).
      - A heap cell is named by its address, a [nat]: the position of the
        object in the store that holds the objects of its class.
      - [RELEASE_ASSERT] aborts the process: this is the completion [Crash].
        [ASSERT] is compiled out of release builds and is not modelled.
        What C++ leaves undefined (the dereference of a null pointer, an
        index outside a vector) is an abort as well.
      - A thrown script exception is the completion [Throw]; the store keeps
        every mutation made before the exception was raised. *)

From Stdlib Require Import ZArith List String Lia QArith.
From stdpp Require Import base list strings gmap pretty.

Local Open Scope Z_scope.

(** ** Machine integers *)

Definition wrap (bits x : Z) : Z := x mod 2 ^ bits.

Definition uint32_t (x : Z) : Prop := 0 <= x < 2 ^ 32.

(** ** Completions: normal return, script exception, process abort *)

Inductive Exception : Type :=
| RangeError (message : string)
| ScriptError (message : string).

Inductive Completion (A : Type) : Type :=
| Normal (a : A)
| Throw (e : Exception)
| Crash (assertion : string).

Arguments Normal {A} a.
Arguments Throw {A} e.
Arguments Crash {A} assertion.

Definition M (S A : Type) : Type := S -> Completion A * S.

Definition ret {S A} (a : A) : M S A := fun s => (Normal a, s).

Definition bind {S A B} (c : M S A) (k : A -> M S B) : M S B :=
  fun s =>
    match c s with
    | (Normal a, s') => k a s'
    | (Throw e, s') => (Throw e, s')
    | (Crash why, s') => (Crash why, s')
    end.

Definition throwException {S A} (e : Exception) : M S A := fun s => (Throw e, s).

Definition crash {S A} (why : string) : M S A := fun s => (Crash why, s).

Definition RELEASE_ASSERT {S} (cond : bool) (why : string) : M S unit :=
  if cond then ret tt else crash why.

Definition get {S} : M S S := fun s => (Normal s, s).

Definition modify {S} (f : S -> S) : M S unit := fun s => (Normal tt, f s).

#[global] Instance M_ret {S} : MRet (M S) := fun A => @ret S A.
#[global] Instance M_bind {S} : MBind (M S) := fun A B k c => @bind S A B c k.

(** [for (const auto& x : xs) body(x)] *)
Fixpoint forEach {S A} (xs : list A) (body : A -> M S unit) : M S unit :=
  match xs with
  | [] => ret tt
  | x :: rest => body x ;; forEach rest body
  end.

Definition isSome {A} (o : option A) : bool :=
  match o with Some _ => true | None => false end.

Definition isNormal {A} (c : Completion A) : bool :=
  match c with Normal _ => true | _ => false end.

Definition isThrow {A} (c : Completion A) : bool :=
  match c with Throw _ => true | _ => false end.

Definition isCrash {A} (c : Completion A) : bool :=
  match c with Crash _ => true | _ => false end.

(** ** Doubles

    [memoryPressureMultiplier] returns a [double] obtained from one
    division of two non-negative integers.  The value is kept exact: a
    non-negative rational, [+infinity] (a positive numerator over zero) or
    NaN (zero over zero).  The rounding of binary64 is not modelled;
    it is monotone and leaves [1.0] fixed, so it changes none of the
    comparisons made below. *)

Inductive double : Type :=
| Finite (q : Q)
| Infinity
| NaN.

Definition double_1 : double := Finite 1.

(** [static_cast<double>(a) / b] for unsigned [a] and [b]. *)
Definition double_div (a b : Z) : double :=
  if b =? 0 then (if a =? 0 then NaN else Infinity)
  else Finite (Qmake a (Z.to_pos b)).

(** [x < y]; every comparison with NaN is false. *)
Definition double_lt (x y : double) : bool :=
  match x, y with
  | Finite p, Finite q => negb (Qle_bool q p)
  | Finite _, Infinity => true
  | _, _ => false
  end.

(** [x <= y] *)
Definition double_le (x y : double) : bool :=
  match x, y with
  | Finite p, Finite q => Qle_bool p q
  | Finite _, Infinity => true
  | Infinity, Infinity => true
  | _, _ => false
  end.

(** * jit/ExecutableAllocator.cpp *)

Module ExecutableAllocator.

(** [size_t] of the 64-bit targets. *)
Definition size_t (x : Z) : Z := wrap 64 x.

(** The constants the file takes from its headers and from the build:
    [pageSize()], [JIT_ALLOCATOR_LARGE_ALLOC_SIZE], and the optional
    [#define EXECUTABLE_MEMORY_LIMIT] ([None] when it stays commented out,
    as in the file). *)
Record Config : Type := {
  pageSize : Z;
  JIT_ALLOCATOR_LARGE_ALLOC_SIZE : Z;
  EXECUTABLE_MEMORY_LIMIT : option Z
}.

Inductive JITCompilationEffort : Type :=
| JITCompilationCanFail
| JITCompilationMustSucceed.

Definition effort_eqb (a b : JITCompilationEffort) : bool :=
  match a, b with
  | JITCompilationCanFail, JITCompilationCanFail => true
  | JITCompilationMustSucceed, JITCompilationMustSucceed => true
  | _, _ => false
  end.

Record PageReservation : Type := {
  base : Z;
  size : Z
}.

Record ExecutableMemoryHandle : Type := {
  start : Z;
  sizeInBytes : Z
}.

(** One allocator object.  [reservations] is the member declared in the
    file; the counters and the free space belong to the [MetaAllocator]
    base class. *)
Record DemandExecutableAllocator : Type := {
  m_bytesAllocated : Z;
  m_bytesCommitted : Z;
  m_freeSpace : list (Z * Z);
  reservations : list PageReservation
}.

(** The process: the registered allocators by address (the static
    [allocators()] set holds exactly the live objects, entered by the
    constructor and removed by the destructor), the static [gAllocator],
    and the sizes of the reservations asked of the operating system so
    far. *)
Record World : Type := {
  allocators : gmap nat DemandExecutableAllocator;
  gAllocator : option nat;
  reserveRequests : list Z
}.

Definition setAllocators (f : gmap nat DemandExecutableAllocator -> gmap nat DemandExecutableAllocator)
    (w : World) : World :=
  {| allocators := f (allocators w);
     gAllocator := gAllocator w;
     reserveRequests := reserveRequests w |}.

Definition logReserve (bytes : Z) (w : World) : World :=
  {| allocators := allocators w;
     gAllocator := gAllocator w;
     reserveRequests := reserveRequests w ++ [bytes] |}.

Definition emptyAllocator : DemandExecutableAllocator :=
  {| m_bytesAllocated := 0; m_bytesCommitted := 0; m_freeSpace := []; reservations := [] |}.

(** [DemandExecutableAllocator::bytesAllocatedByAllAllocators] *)
Definition bytesAllocatedByAllAllocators (w : World) : Z :=
  map_fold (fun _ allocator total => size_t (total + m_bytesAllocated allocator)) 0 (allocators w).

(** [DemandExecutableAllocator::bytesCommittedByAllocactors] *)
Definition bytesCommittedByAllocactors (w : World) : Z :=
  map_fold (fun _ allocator total => size_t (total + m_bytesCommitted allocator)) 0 (allocators w).

Definition derefAllocator (this : nat) : M World DemandExecutableAllocator :=
  fun w =>
    match allocators w !! this with
    | Some a => (Normal a, w)
    | None => (Crash "dereference of a dead allocator", w)
    end.

Definition appendReservation (r : PageReservation) (a : DemandExecutableAllocator)
    : DemandExecutableAllocator :=
  {| m_bytesAllocated := m_bytesAllocated a;
     m_bytesCommitted := m_bytesCommitted a;
     m_freeSpace := m_freeSpace a;
     reservations := reservations a ++ [r] |}.

Section Allocator.

Variable config : Config.

(** The operating system: given the reservations requested so far and the
    size of a new request, the base address of the region, or [None] when
    the address space is exhausted. *)
Variable OSAllocator_reserve : list Z -> Z -> option Z.

(** [PageReservation::reserve] *)
Definition PageReservation_reserve (bytes : Z) : M World (option PageReservation) :=
  fun w =>
    (Normal ((fun b => {| base := b; size := bytes |}) <$> OSAllocator_reserve (reserveRequests w) bytes),
     logReserve bytes w).

(** The rounding of [numPages] at the head of [allocateNewSpace]. *)
Definition newNumPages (numPages : Z) : Z :=
  let large := JIT_ALLOCATOR_LARGE_ALLOC_SIZE config in
  let bytes := size_t (numPages * pageSize config + large - 1) in
  let rounded := size_t (bytes / large * large) in
  size_t (rounded + pageSize config - 1) / pageSize config.

(** [DemandExecutableAllocator::allocateNewSpace(size_t& numPages)]: the
    result pairs the value left in [numPages] with the returned pointer
    ([None] is the null pointer). *)
Definition allocateNewSpace (this : nat) (numPages : Z) : M World (Z * option Z) :=
  let numPages := newNumPages numPages in
  let overLimit w :=
    match EXECUTABLE_MEMORY_LIMIT config with
    | Some limit => size_t limit <=? bytesAllocatedByAllAllocators w
    | None => false
    end in
  w ← get;
  if overLimit w then mret (numPages, None)
  else
    reservation ← PageReservation_reserve (size_t (numPages * pageSize config));
    match reservation with
    | None => crash "RELEASE_ASSERT(reservation)"
    | Some r =>
        a ← derefAllocator this;
        modify (setAllocators <[this := appendReservation r a]>);;
        mret (numPages, Some (base r))
    end.

(** [ExecutableAllocator::underMemoryPressure] *)
Definition underMemoryPressure (w : World) : bool :=
  match EXECUTABLE_MEMORY_LIMIT config with
  | Some limit => size_t limit / 2 <? bytesAllocatedByAllAllocators w
  | None => false
  end.

(** The local [bytesAllocated] of [memoryPressureMultiplier] after its
    clamp to the limit. *)
Definition clampedBytesAllocated (limit : Z) (w : World) (addedMemoryUsage : Z) : Z :=
  let bytesAllocated := size_t (bytesAllocatedByAllAllocators w + addedMemoryUsage) in
  if size_t limit <=? bytesAllocated then size_t limit else bytesAllocated.

(** [ExecutableAllocator::memoryPressureMultiplier] *)
Definition memoryPressureMultiplier (w : World) (addedMemoryUsage : Z) : double :=
  let result :=
    match EXECUTABLE_MEMORY_LIMIT config with
    | Some limit =>
        let bytesAllocated := clampedBytesAllocated limit w addedMemoryUsage in
        double_div limit (size_t (limit - bytesAllocated))
    | None => double_1
    end in
  if double_lt result double_1 then double_1 else result.

(** [ExecutableAllocator::allocate].  The call [allocator()->allocate(...)]
    goes to [MetaAllocator::allocate], which this file inherits; it is the
    parameter [baseAllocate]. *)
Definition allocate
    (baseAllocate : nat -> Z -> M World (option ExecutableMemoryHandle))
    (sizeInBytes : Z) (effort : JITCompilationEffort)
    : M World (option ExecutableMemoryHandle) :=
  w ← get;
  match gAllocator w with
  | None => crash "null gAllocator"
  | Some this =>
      result ← baseAllocate this sizeInBytes;
      RELEASE_ASSERT (isSome result || negb (effort_eqb effort JITCompilationMustSucceed))
        "RELEASE_ASSERT(result || effort != JITCompilationMustSucceed)";;
      mret result
  end.

(** Modelled from the spec: the free-space search of the region allocator
    ([MetaAllocator], not part of this file).  The spec fixes no placement
    policy; the first free range that is large enough is used. *)
Fixpoint findAndRemoveFreeSpace (free : list (Z * Z)) (sizeInBytes : Z)
    : option (Z * list (Z * Z)) :=
  match free with
  | [] => None
  | (start, len) :: rest =>
      if sizeInBytes <=? len then
        Some (start, if sizeInBytes =? len then rest
                     else (start + sizeInBytes, len - sizeInBytes) :: rest)
      else
        match findAndRemoveFreeSpace rest sizeInBytes with
        | Some (p, rest') => Some (p, (start, len) :: rest')
        | None => None
        end
  end.

Definition takeSpace (free : list (Z * Z)) (sizeInBytes : Z) (a : DemandExecutableAllocator)
    : DemandExecutableAllocator :=
  {| m_bytesAllocated := size_t (m_bytesAllocated a + sizeInBytes);
     m_bytesCommitted := m_bytesCommitted a;
     m_freeSpace := free;
     reservations := reservations a |}.

(** Modelled from the spec: [MetaAllocator::allocate], the region
    allocator's [allocate(size, ownerTag) -> MemoryHandle | null] with its
    growth algorithm: a request the free list can satisfy is served from it;
    otherwise the allocator grows through [allocateNewSpace], fails with
    null when that returns null, and else serves the request from the new
    chunk, whose remainder extends the free list.  The bytes of a handle
    count toward [bytesAllocated]. *)
Definition MetaAllocator_allocate (this : nat) (sizeInBytes : Z)
    : M World (option ExecutableMemoryHandle) :=
  a ← derefAllocator this;
  match findAndRemoveFreeSpace (m_freeSpace a) sizeInBytes with
  | Some (p, free) =>
      modify (setAllocators <[this := takeSpace free sizeInBytes a]>);;
      mret (Some {| start := p; sizeInBytes := sizeInBytes |})
  | None =>
      let requestedNumberOfPages := (sizeInBytes + pageSize config - 1) / pageSize config in
      grown ← allocateNewSpace this requestedNumberOfPages;
      match grown with
      | (_, None) => mret None
      | (numberOfPages, Some p) =>
          a' ← derefAllocator this;
          let leftOver := numberOfPages * pageSize config - sizeInBytes in
          let free := if 0 <? leftOver then m_freeSpace a' ++ [(p + sizeInBytes, leftOver)]
                      else m_freeSpace a' in
          modify (setAllocators <[this := takeSpace free sizeInBytes a']>);;
          mret (Some {| start := p; sizeInBytes := sizeInBytes |})
      end
  end.

End Allocator.

Section Growth.

Variable config : Config.

(** The check at the head of [allocateNewSpace] lets the growth through:
    no limit is configured, or the bytes allocated by all allocators are
    below it. *)
Definition underLimit (w : World) : Prop :=
  match EXECUTABLE_MEMORY_LIMIT config with
  | Some limit => bytesAllocatedByAllAllocators w < size_t limit
  | None => True
  end.

End Growth.

Section Registry.

(** The constructor of [DemandExecutableAllocator] for the object at
    [this]: the object [metaAllocator] that the constructor of the base
    class left gets an empty [reservations] vector (no memory is
    preallocated) and enters the [allocators()] set. *)
Definition construct (this : nat) (metaAllocator : DemandExecutableAllocator) : World -> World :=
  setAllocators <[this := {| m_bytesAllocated := m_bytesAllocated metaAllocator;
                            m_bytesCommitted := m_bytesCommitted metaAllocator;
                            m_freeSpace := m_freeSpace metaAllocator;
                            reservations := [] |}]>.

(** The destructor: the object leaves the [allocators()] set and its
    reservations are deallocated in the order of the vector; the result is
    the list of the reservations deallocated. *)
Definition destroy (this : nat) : M World (list PageReservation) :=
  a ← derefAllocator this;
  modify (setAllocators (delete this));;
  mret (reservations a).

(** [ExecutableAllocator::initializeAllocator]: [new] places the object at
    an address that no live allocator has. *)
Definition initializeAllocator (metaAllocator : DemandExecutableAllocator) (w : World) : World :=
  let this := fresh (dom (allocators w)) in
  let w' := construct this metaAllocator w in
  {| allocators := allocators w';
     gAllocator := Some this;
     reserveRequests := reserveRequests w' |}.

(** [ExecutableAllocator::committedByteCount] *)
Definition committedByteCount (w : World) : Z := bytesCommittedByAllocactors w.

End Registry.

End ExecutableAllocator.

(** * wasm/js/WebAssemblyModuleRecord.cpp *)

Module Wasm.

(** The part of [WasmFormat.h] that [link] and [evaluate] read. *)

Inductive ExternalKind : Type := Function | Table | Memory | Global.

Inductive Type_ : Type := Void | I32 | I64 | F32 | F64.

Inductive Mutability : Type := Mutable | Immutable.

Record Signature : Type := {
  returnType : Type_;
  arguments : list Type_
}.

Record Export : Type := {
  field : string;
  kind : ExternalKind;
  kindIndex : Z
}.

Record GlobalInformation : Type := {
  mutability : Mutability;
  type : Type_
}.

Record Element : Type := {
  offset : Z;
  functionIndices : list Z
}.

(** A data segment: [offset], [sizeInBytes], and the [sizeInBytes] payload
    bytes that [Segment::make] allocates behind the header. *)
Record Segment : Type := {
  segment_offset : Z;
  sizeInBytes : Z;
  bytes : list Byte.byte
}.

Record ModuleInformation : Type := {
  exports : list Export;
  startFunctionIndexSpace : option Z;
  elements : list Element;
  data : list Segment;
  globals : list GlobalInformation
}.

End Wasm.

Module WebAssemblyModuleRecord.

Import Wasm.

(** A compiled entry point; [JSWebAssemblyCallee] objects are owned by the
    module and named here by their address. *)
Definition JSWebAssemblyCallee : Type := Z.

(** [JSWebAssemblyModule], through the accessors the file calls. *)
Record JSWebAssemblyModule : Type := {
  moduleInformation : ModuleInformation;
  exportSymbolTable : list string;
  importCount : Z;
  jsEntrypointCalleeFromFunctionIndexSpace : Z -> JSWebAssemblyCallee;
  wasmEntrypointCalleeFromFunctionIndexSpace : Z -> JSWebAssemblyCallee;
  signatureForFunctionIndexSpace : Z -> Signature
}.

(** [Wasm::Memory]: the base pointer ([None] is null) with the bytes it
    maps; [size()] is their number. *)
Record WasmMemory : Type := {
  memory : option (list Byte.byte)
}.

Definition WasmMemory_size (m : WasmMemory) : Z :=
  match memory m with
  | Some contents => Z.of_nat (length contents)
  | None => 0
  end.

(** [JSWebAssemblyInstance]: its module, its table (a slot holds the
    address of a [WebAssemblyFunction] or null), its memory and the raw
    64-bit cells of its globals. *)
Record JSWebAssemblyInstance : Type := {
  module : JSWebAssemblyModule;
  table : option (list (option nat));
  instance_memory : option WasmMemory;
  instance_globals : list Z
}.

(** [WebAssemblyFunction], as [WebAssemblyFunction::create] builds it. *)
Record WebAssemblyFunction : Type := {
  function_length : Z;
  function_name : string;
  function_instance : nat;
  jsEntrypoint : JSWebAssemblyCallee;
  wasmEntrypoint : JSWebAssemblyCallee;
  function_signature : Signature
}.

(** Script values an export can take.  A number read from a global is
    kept by the bits of its cell. *)
Inductive JSValue : Type :=
| jsUndefined
| JSFunctionObject (address : nat)
| JSTableObject (instance : nat)
| JSMemoryObject (instance : nat)
| jsNumberI32 (bits : Z)
| jsNumberF32 (bits : Z)
| jsNumberF64 (bits : Z).

(** The store: the [WebAssemblyFunction] cells and the instances, each by
    address, and the members of the module record ([this]). *)
Record VM : Type := {
  functions : list WebAssemblyFunction;
  instances : list JSWebAssemblyInstance;
  m_instance : option nat;
  m_startFunction : option nat;
  m_moduleEnvironment : option (gmap string JSValue)
}.

Definition setFunctions (f : list WebAssemblyFunction -> list WebAssemblyFunction) (vm : VM) : VM :=
  {| functions := f (functions vm);
     instances := instances vm;
     m_instance := m_instance vm;
     m_startFunction := m_startFunction vm;
     m_moduleEnvironment := m_moduleEnvironment vm |}.

Definition setInstances (f : list JSWebAssemblyInstance -> list JSWebAssemblyInstance) (vm : VM) : VM :=
  {| functions := functions vm;
     instances := f (instances vm);
     m_instance := m_instance vm;
     m_startFunction := m_startFunction vm;
     m_moduleEnvironment := m_moduleEnvironment vm |}.

Definition set_m_instance (i : nat) (vm : VM) : VM :=
  {| functions := functions vm;
     instances := instances vm;
     m_instance := Some i;
     m_startFunction := m_startFunction vm;
     m_moduleEnvironment := m_moduleEnvironment vm |}.

Definition set_m_startFunction (f : nat) (vm : VM) : VM :=
  {| functions := functions vm;
     instances := instances vm;
     m_instance := m_instance vm;
     m_startFunction := Some f;
     m_moduleEnvironment := m_moduleEnvironment vm |}.

Definition set_m_moduleEnvironment (env : gmap string JSValue) (vm : VM) : VM :=
  {| functions := functions vm;
     instances := instances vm;
     m_instance := m_instance vm;
     m_startFunction := m_startFunction vm;
     m_moduleEnvironment := Some env |}.

Definition setTable (t : list (option nat)) (i : JSWebAssemblyInstance) : JSWebAssemblyInstance :=
  {| module := module i;
     table := Some t;
     instance_memory := instance_memory i;
     instance_globals := instance_globals i |}.

Definition setMemory (m : WasmMemory) (i : JSWebAssemblyInstance) : JSWebAssemblyInstance :=
  {| module := module i;
     table := table i;
     instance_memory := Some m;
     instance_globals := instance_globals i |}.

Definition derefInstance (instance : nat) : M VM JSWebAssemblyInstance :=
  fun vm =>
    match instances vm !! instance with
    | Some i => (Normal i, vm)
    | None => (Crash "dereference of a null instance", vm)
    end.

(** What a script can observe of the store: the value of an export, the
    slots of the table of an instance, the bytes of its memory. *)
Definition exportedValue (vm : VM) (name : string) : option JSValue :=
  match m_moduleEnvironment vm with
  | Some env => env !! name
  | None => None
  end.

Definition tableOf (vm : VM) (instance : nat) : option (list (option nat)) :=
  match instances vm !! instance with
  | Some inst => table inst
  | None => None
  end.

Definition memoryOf (vm : VM) (instance : nat) : option (list Byte.byte) :=
  match instances vm !! instance with
  | Some {| instance_memory := Some jsMemory |} => memory jsMemory
  | _ => None
  end.

(** [WebAssemblyFunction::create]: like [WebAssemblyModuleRecord::create]
    in this file, a [create] allocates a new cell and finishes its
    creation; the address of the cell is returned. *)
Definition WebAssemblyFunction_create (length : Z) (name : string) (instance : nat)
    (jsEntrypointCallee wasmEntrypointCallee : JSWebAssemblyCallee) (signature : Signature)
    : M VM nat :=
  fun vm =>
    (Normal (List.length (functions vm)),
     setFunctions (fun cells => cells ++ [{| function_length := length;
                                            function_name := name;
                                            function_instance := instance;
                                            jsEntrypoint := jsEntrypointCallee;
                                            wasmEntrypoint := wasmEntrypointCallee;
                                            function_signature := signature |}]) vm).

(** [for] loop that threads a local variable. *)
Fixpoint foldM {S A B} (body : B -> A -> M S B) (b : B) (xs : list A) : M S B :=
  match xs with
  | [] => mret b
  | x :: rest => b' ← body b x; foldM body b' rest
  end.

(** [instance->loadI32Global(i)], [loadF32Global], [loadF64Global]: the
    cell of global [i], cut to the width of its type. *)
Definition loadGlobal (bits : Z) (inst : JSWebAssemblyInstance) (i : Z) : M VM Z :=
  match instance_globals inst !! Z.to_nat i with
  | Some cell => mret (wrap bits cell)
  | None => crash "global index out of range"
  end.

(** What a step of [link] can do to the members the one-shot check reads:
    it returns normally and leaves [m_instance] and the instances alone, or
    it aborts; it never throws. *)
Definition linkStep {A} (vm : VM) (r : Completion A * VM) : Prop :=
  match r with
  | (Normal _, vm') => m_instance vm' = m_instance vm /\ instances vm' = instances vm
  | (Throw _, _) => False
  | (Crash _, _) => True
  end.

Section Link.

(** [symbolTablePutTouchWatchpointSet], of the runtime: the put of a value
    into the slot [name] of an environment made over [symbolTable].  It
    returns the environment and [putResult]. *)
Variable symbolTablePutTouchWatchpointSet :
  list string -> gmap string JSValue -> string -> JSValue -> gmap string JSValue * bool.

(** The body of the loop over [moduleInformation.exports] in [link]; [env]
    is the [moduleEnvironment] under construction. *)
Definition linkExport (instance : nat) (inst : JSWebAssemblyInstance)
    (hasStart : bool) (startFunctionIndexSpace : Z)
    (env : gmap string JSValue) (exp : Export) : M VM (gmap string JSValue) :=
  let module := module inst in
  exportedValue ←
    match kind exp with
    | Function =>
        if kindIndex exp <? importCount module then
          crash "RELEASE_ASSERT_NOT_REACHED()"
        else
          let jsEntrypointCallee := jsEntrypointCalleeFromFunctionIndexSpace module (kindIndex exp) in
          let wasmEntrypointCallee := wasmEntrypointCalleeFromFunctionIndexSpace module (kindIndex exp) in
          let signature := signatureForFunctionIndexSpace module (kindIndex exp) in
          function ← WebAssemblyFunction_create (Z.of_nat (length (arguments signature)))
                       (field exp) instance jsEntrypointCallee wasmEntrypointCallee signature;
          (if hasStart && (startFunctionIndexSpace =? kindIndex exp)
           then modify (set_m_startFunction function) else mret tt);;
          mret (JSFunctionObject function)
    | Table =>
        RELEASE_ASSERT (isSome (table inst)) "RELEASE_ASSERT(instance->table())";;
        mret (JSTableObject instance)
    | Memory =>
        RELEASE_ASSERT (isSome (instance_memory inst)) "RELEASE_ASSERT(instance->memory())";;
        mret (JSMemoryObject instance)
    | Global =>
        match globals (moduleInformation module) !! Z.to_nat (kindIndex exp) with
        | None => crash "global index out of range"
        | Some global =>
            match type global with
            | I32 => v ← loadGlobal 32 inst (kindIndex exp); mret (jsNumberI32 v)
            | F32 => v ← loadGlobal 32 inst (kindIndex exp); mret (jsNumberF32 v)
            | F64 => v ← loadGlobal 64 inst (kindIndex exp); mret (jsNumberF64 v)
            | _ => crash "RELEASE_ASSERT_NOT_REACHED()"
            end
        end
    end;
  let (env', putResult) :=
    symbolTablePutTouchWatchpointSet (exportSymbolTable module) env (field exp) exportedValue in
  RELEASE_ASSERT putResult "RELEASE_ASSERT(putResult)";;
  mret env'.

(** The loop over [moduleInformation.exports] in [link], from the empty
    [moduleEnvironment]. *)
Definition linkExports (instance : nat) (inst : JSWebAssemblyInstance)
    : M VM (gmap string JSValue) :=
  let moduleInformation := moduleInformation (module inst) in
  foldM (linkExport instance inst
           (isSome (startFunctionIndexSpace moduleInformation))
           (default 0 (startFunctionIndexSpace moduleInformation)))
    ∅ (exports moduleInformation).

(** [WebAssemblyModuleRecord::link] *)
Definition link (instance : nat) : M VM unit :=
  inst ← derefInstance instance;
  let module := module inst in
  let moduleInformation := moduleInformation module in
  let hasStart := isSome (startFunctionIndexSpace moduleInformation) in
  let startFunctionIndexSpace := default 0 (startFunctionIndexSpace moduleInformation) in
  moduleEnvironment ← linkExports instance inst;
  (if hasStart then
     vm ← get;
     if isSome (m_startFunction vm) then mret tt
     else
       let signature := signatureForFunctionIndexSpace module startFunctionIndexSpace in
       let jsEntrypointCallee := jsEntrypointCalleeFromFunctionIndexSpace module startFunctionIndexSpace in
       let wasmEntrypointCallee := wasmEntrypointCalleeFromFunctionIndexSpace module startFunctionIndexSpace in
       function ← WebAssemblyFunction_create (Z.of_nat (length (arguments signature)))
                    "start" instance jsEntrypointCallee wasmEntrypointCallee signature;
       modify (set_m_startFunction function)
   else mret tt);;
  vm ← get;
  RELEASE_ASSERT (negb (isSome (m_instance vm))) "RELEASE_ASSERT(!m_instance)";;
  modify (set_m_instance instance);;
  modify (set_m_moduleEnvironment moduleEnvironment).

End Link.

(** The message [dataSegmentFail] builds with [makeString];
    [String::number] prints decimals. *)
Definition dataSegmentMessage (memorySize segmentSize offset : Z) (args : string) : string :=
  "Invalid data segment initialization: segment of " +:+ pretty segmentSize
  +:+ " bytes memory of " +:+ pretty memorySize
  +:+ " bytes, at offset " +:+ pretty offset +:+ args.

(** [dataSegmentFail] *)
Definition dataSegmentFail {A} (memorySize segmentSize offset : Z) (args : string) : M VM A :=
  throwException (RangeError (dataSegmentMessage memorySize segmentSize offset args)).

Definition throwVMRangeError {A} (message : string) : M VM A :=
  throwException (RangeError message).

Definition outOfBoundsTableIndex : string :=
  "Element is trying to set an out of bounds table index".

Definition tableValueWithImport : string :=
  "Element is setting the table value with an import. This is not yet implemented. FIXME.".

Definition segmentIsTooBig : string := ", segment is too big".

Definition segmentWritesOutsideOfMemory : string := ", segment writes outside of memory".

(** [table->size()] on the table of the instance. *)
Definition Table_size (instance : nat) : M VM Z :=
  inst ← derefInstance instance;
  match table inst with
  | Some slots => mret (Z.of_nat (length slots))
  | None => crash "dereference of a null table"
  end.

(** [table->setFunction(vm, index, function)]: the store into the slot
    array, which asserts that the index is inside it. *)
Definition Table_setFunction (instance : nat) (index : Z) (function : nat) : M VM unit :=
  inst ← derefInstance instance;
  match table inst with
  | Some slots =>
      RELEASE_ASSERT (index <? Z.of_nat (length slots)) "RELEASE_ASSERT(index < m_size)";;
      modify (setInstances <[instance := setTable (<[Z.to_nat index := Some function]> slots) inst]>)
  | None => crash "dereference of a null table"
  end.

(** The inner loop of phase 1, over the function indices still to be
    written, with the running [tableIndex]. *)
Fixpoint setElementFunctions (instance : nat) (module : JSWebAssemblyModule)
    (functionIndices : list Z) (tableIndex : Z) : M VM unit :=
  match functionIndices with
  | [] => mret tt
  | functionIndex :: rest =>
      if functionIndex <? importCount module then
        throwVMRangeError tableValueWithImport
      else
        let jsEntrypointCallee := jsEntrypointCalleeFromFunctionIndexSpace module functionIndex in
        let wasmEntrypointCallee := wasmEntrypointCalleeFromFunctionIndexSpace module functionIndex in
        let signature := signatureForFunctionIndexSpace module functionIndex in
        function ← WebAssemblyFunction_create (Z.of_nat (length (arguments signature)))
                     "" instance jsEntrypointCallee wasmEntrypointCallee signature;
        Table_setFunction instance tableIndex function;;
        setElementFunctions instance module rest (wrap 32 (tableIndex + 1))
  end.

(** No function index of the list is in the import range. *)
Definition noImport (module : JSWebAssemblyModule) (functionIndices : list Z) : bool :=
  forallb (fun functionIndex => importCount module <=? functionIndex) functionIndices.

(** [lastWrittenIndex], computed in [uint64_t]. *)
Definition lastWrittenIndex (element : Element) : Z :=
  wrap 64 (wrap 64 (offset element) + wrap 64 (Z.of_nat (length (functionIndices element))) - 1).

(** The body of the loop over [moduleInformation.elements]. *)
Definition evaluateElement (instance : nat) (module : JSWebAssemblyModule)
    (element : Element) : M VM unit :=
  if Z.of_nat (length (functionIndices element)) =? 0 then mret tt
  else
    let tableIndex := offset element in
    size ← Table_size instance;
    if size <=? lastWrittenIndex element then
      throwVMRangeError outOfBoundsTableIndex
    else
      setElementFunctions instance module (functionIndices element) tableIndex.

(** [memcpy(memory + offset, source, n)] into the linear memory of the
    instance. *)
Definition writeMemory (offset : Z) (source : list Byte.byte) (inst : JSWebAssemblyInstance)
    : JSWebAssemblyInstance :=
  match instance_memory inst with
  | Some {| memory := Some contents |} =>
      setMemory {| memory := Some (list_inserts (Z.to_nat offset) source contents) |} inst
  | _ => inst
  end.

Definition memcpy (instance : nat) (offset : Z) (source : list Byte.byte) : M VM unit :=
  modify (setInstances (alter (writeMemory offset source) instance)).

(** The body of the loop over the data segments; [memorySize] is the local
    [sizeInBytes] of [evaluate].  [dataSegmentFail] takes its three numbers
    at one type, so the sizes and the offset are all [uint32_t] and the
    subtraction is made at that width. *)
Definition evaluateSegment (instance : nat) (memorySize : Z) (segment : Segment) : M VM unit :=
  if sizeInBytes segment =? 0 then mret tt
  else if memorySize <? sizeInBytes segment then
    dataSegmentFail memorySize (sizeInBytes segment) (segment_offset segment) segmentIsTooBig
  else if wrap 32 (memorySize - sizeInBytes segment) <? segment_offset segment then
    dataSegmentFail memorySize (sizeInBytes segment) (segment_offset segment)
      segmentWritesOutsideOfMemory
  else
    memcpy instance (segment_offset segment) (take (Z.to_nat (sizeInBytes segment)) (bytes segment)).

(** Phase 1 of [evaluate]: the first block. *)
Definition evaluateElements (instance : nat) : M VM unit :=
  inst ← derefInstance instance;
  let module := module inst in
  forEach (elements (moduleInformation module)) (evaluateElement instance module).

(** Phase 2 of [evaluate]: the second block. *)
Definition evaluateData (instance : nat) : M VM unit :=
  inst ← derefInstance instance;
  let data := data (moduleInformation (module inst)) in
  match data with
  | [] => mret tt
  | _ :: _ =>
      match instance_memory inst with
      | None => crash "RELEASE_ASSERT(jsMemory)"
      | Some jsMemory =>
          match memory jsMemory with
          | None => crash "RELEASE_ASSERT(memory)"
          | Some _ =>
              let sizeInBytes := WasmMemory_size jsMemory in
              forEach data (evaluateSegment instance sizeInBytes)
          end
      end
  end.

Section Evaluate.

(** [WebAssemblyFunction::call]: the compiled code of the start function,
    which may do anything to the store and may throw. *)
Variable call : nat -> M VM unit.

(** [WebAssemblyModuleRecord::evaluate] *)
Definition evaluate : M VM JSValue :=
  vm ← get;
  match m_instance vm with
  | None => crash "dereference of a null instance"
  | Some instance =>
      evaluateElements instance;;
      evaluateData instance;;
      vm ← get;
      match m_startFunction vm with
      | Some startFunction => call startFunction
      | None => mret tt
      end;;
      mret jsUndefined
  end.

End Evaluate.

(** The cell that [evaluate] creates for a table slot initialized with
    [functionIndex]: the arguments of its [WebAssemblyFunction::create]. *)
Definition tableFunction (instance : nat) (module : JSWebAssemblyModule) (functionIndex : Z)
    : WebAssemblyFunction :=
  let signature := signatureForFunctionIndexSpace module functionIndex in
  {| function_length := Z.of_nat (length (arguments signature));
     function_name := "";
     function_instance := instance;
     jsEntrypoint := jsEntrypointCalleeFromFunctionIndexSpace module functionIndex;
     wasmEntrypoint := wasmEntrypointCalleeFromFunctionIndexSpace module functionIndex;
     function_signature := signature |}.

(** The cell that [link] creates for the function export [exp]. *)
Definition exportFunction (instance : nat) (module : JSWebAssemblyModule) (exp : Export)
    : WebAssemblyFunction :=
  let signature := signatureForFunctionIndexSpace module (kindIndex exp) in
  {| function_length := Z.of_nat (length (arguments signature));
     function_name := field exp;
     function_instance := instance;
     jsEntrypoint := jsEntrypointCalleeFromFunctionIndexSpace module (kindIndex exp);
     wasmEntrypoint := wasmEntrypointCalleeFromFunctionIndexSpace module (kindIndex exp);
     function_signature := signature |}.

Definition isFunctionExport (exp : Export) : bool :=
  match kind exp with Function => true | _ => false end.

(** The test that sets [m_startFunction] inside the loop of [link]. *)
Definition exportsStart (moduleInformation : ModuleInformation) (exp : Export) : bool :=
  match startFunctionIndexSpace moduleInformation with
  | Some start => isFunctionExport exp && (start =? kindIndex exp)
  | None => false
  end.

(** The two checks of the data-segment loop pass for [segment] (or the
    segment is empty and is skipped). *)
Definition segmentFits (memorySize : Z) (segment : Segment) : bool :=
  (sizeInBytes segment =? 0)
  || ((sizeInBytes segment <=? memorySize)
      && (segment_offset segment <=? memorySize - sizeInBytes segment)).

(** The bytes of a memory after the segments were copied in order. *)
Definition writeSegments (contents : list Byte.byte) (segments : list Segment) : list Byte.byte :=
  foldl (fun bytes_ segment =>
           list_inserts (Z.to_nat (segment_offset segment)) (bytes segment) bytes_)
        contents segments.

(** A data segment as the decoder makes it: 32-bit offset and size, and a
    payload of [sizeInBytes] bytes. *)
Definition wellFormedSegment (segment : Segment) : Prop :=
  uint32_t (segment_offset segment)
  /\ uint32_t (sizeInBytes segment)
  /\ Z.of_nat (length (bytes segment)) = sizeInBytes segment.

(** What the segment phases of [evaluate] leave alone in an instance: its
    module, its globals, whether it has a table and a memory, and their
    sizes. *)
Definition instanceShape (inst : JSWebAssemblyInstance)
    : JSWebAssemblyModule * list Z * option nat * option (option nat) :=
  (module inst, instance_globals inst,
   option_map (fun slots : list (option nat) => length slots) (table inst),
   option_map (fun jsMemory => option_map (fun contents : list Byte.byte => length contents)
                                 (memory jsMemory))
     (instance_memory inst)).

(** The store [vm'] extends [vm]: the function cells of [vm] are still
    there, unchanged, the instances have the shape they had, and the
    members of the module record are the same. *)
Definition extends (vm vm' : VM) : Prop :=
  functions vm `prefix_of` functions vm'
  /\ instanceShape <$> instances vm' = instanceShape <$> instances vm
  /\ m_instance vm' = m_instance vm
  /\ m_startFunction vm' = m_startFunction vm
  /\ m_moduleEnvironment vm' = m_moduleEnvironment vm.

(** The cell that [link] creates for a start function that no export
    produced. *)
Definition startFunction (instance : nat) (module : JSWebAssemblyModule) (start : Z)
    : WebAssemblyFunction :=
  let signature := signatureForFunctionIndexSpace module start in
  {| function_length := Z.of_nat (length (arguments signature));
     function_name := "start";
     function_instance := instance;
     jsEntrypoint := jsEntrypointCalleeFromFunctionIndexSpace module start;
     wasmEntrypoint := wasmEntrypointCalleeFromFunctionIndexSpace module start;
     function_signature := signature |}.

(** The cells [link] creates: one per function export, in the order of
    the exports, and one more for a start function that is not among
    them. *)
Definition linkedFunctions (instance : nat) (module : JSWebAssemblyModule)
    : list WebAssemblyFunction :=
  let moduleInformation := moduleInformation module in
  (exportFunction instance module <$> List.filter isFunctionExport (exports moduleInformation))
  ++ match startFunctionIndexSpace moduleInformation with
     | Some start =>
         if existsb (exportsStart moduleInformation) (exports moduleInformation) then []
         else [startFunction instance module start]
     | None => []
     end.

(** [value] is what [link] computes for the export [exp], given the
    function cells of the store. *)
Definition exportValue (instance : nat) (inst : JSWebAssemblyInstance)
    (cells : list WebAssemblyFunction) (exp : Export) (value : JSValue) : Prop :=
  match kind exp with
  | Function =>
      exists address,
        value = JSFunctionObject address
        /\ cells !! address = Some (exportFunction instance (module inst) exp)
  | Table => value = JSTableObject instance /\ isSome (table inst) = true
  | Memory => value = JSMemoryObject instance /\ isSome (instance_memory inst) = true
  | Global =>
      exists global cell,
        globals (moduleInformation (module inst)) !! Z.to_nat (kindIndex exp) = Some global
        /\ instance_globals inst !! Z.to_nat (kindIndex exp) = Some cell
        /\ match type global with
           | I32 => value = jsNumberI32 (wrap 32 cell)
           | F32 => value = jsNumberF32 (wrap 32 cell)
           | F64 => value = jsNumberF64 (wrap 64 cell)
           | _ => False
           end
  end.

(** The export [exp] cannot be realized on the instance: a table or a
    memory that the instance does not have, or a global whose type is
    none of i32, f32, f64. *)
Definition unrealizable (inst : JSWebAssemblyInstance) (exp : Export) : Prop :=
  match kind exp with
  | Function => False
  | Table => table inst = None
  | Memory => instance_memory inst = None
  | Global =>
      exists global,
        globals (moduleInformation (module inst)) !! Z.to_nat (kindIndex exp) = Some global
        /\ (type global = I64 \/ type global = Void)
  end.

End WebAssemblyModuleRecord.

(** * Sample inputs *)

Module AllocatorExamples.

Import ExecutableAllocator.

(** 4 KiB pages, 64 KiB chunks, and the limit the file suggests. *)
Definition limited : Config :=
  {| pageSize := 4096;
     JIT_ALLOCATOR_LARGE_ALLOC_SIZE := 4096 * 16;
     EXECUTABLE_MEMORY_LIMIT := Some 1000000 |}.

(** The same build with the [#define] left commented out. *)
Definition unlimited : Config :=
  {| pageSize := 4096;
     JIT_ALLOCATOR_LARGE_ALLOC_SIZE := 4096 * 16;
     EXECUTABLE_MEMORY_LIMIT := None |}.

(** An operating system that places the n-th reservation at n * 2^32. *)
Definition os (requests : list Z) (bytes : Z) : option Z :=
  Some (2 ^ 32 * (1 + Z.of_nat (length requests))).

(** After [initializeAllocator]: one registered allocator, nothing
    reserved. *)
Definition fresh : World :=
  {| allocators := {[ 0%nat := emptyAllocator ]};
     gAllocator := Some 0%nat;
     reserveRequests := [] |}.

(** The world after one successful request of 1000000 bytes. *)
Definition atLimit : World :=
  snd (allocate (MetaAllocator_allocate limited os) 1000000 JITCompilationCanFail fresh).

(** One registered allocator with [n] bytes allocated and no free space. *)
Definition full (n : Z) : World :=
  {| allocators := {[ 0%nat := {| m_bytesAllocated := n; m_bytesCommitted := n;
                                  m_freeSpace := []; reservations := [] |} ]};
     gAllocator := Some 0%nat;
     reserveRequests := [] |}.

End AllocatorExamples.

Module ModuleRecordExamples.

Import Wasm WebAssemblyModuleRecord.

Definition nullary : Signature := {| returnType := Void; arguments := [] |}.

(** A module without start function and without globals whose symbol
    table names exactly its exports. *)
Definition sampleModule (exports : list Export) (elements : list Element)
    (data : list Segment) (importCount : Z) : JSWebAssemblyModule :=
  {| moduleInformation :=
       {| exports := exports;
          startFunctionIndexSpace := None;
          elements := elements;
          data := data;
          globals := [] |};
     exportSymbolTable := field <$> exports;
     importCount := importCount;
     jsEntrypointCalleeFromFunctionIndexSpace := fun functionIndexSpace => functionIndexSpace;
     wasmEntrypointCalleeFromFunctionIndexSpace := fun functionIndexSpace => functionIndexSpace;
     signatureForFunctionIndexSpace := fun _ => nullary |}.

(** An instance of [module] with an empty table of [tableSize] slots and
    a zeroed memory of [memorySize] bytes. *)
Definition sampleInstance (module : JSWebAssemblyModule) (tableSize memorySize : nat)
    : JSWebAssemblyInstance :=
  {| module := module;
     table := Some (replicate tableSize None);
     instance_memory := Some {| memory := Some (replicate memorySize Byte.x00) |};
     instance_globals := [] |}.

(** A store holding that one instance and an unlinked module record. *)
Definition unlinked (inst : JSWebAssemblyInstance) : VM :=
  {| functions := [];
     instances := [inst];
     m_instance := None;
     m_startFunction := None;
     m_moduleEnvironment := None |}.

(** A put that writes the slot when the symbol table has an entry for the
    name, and reports failure otherwise. *)
Definition slotPut (symbolTable : list string) (env : gmap string JSValue)
    (name : string) (value : JSValue) : gmap string JSValue * bool :=
  if bool_decide (name ∈ symbolTable) then (<[name := value]> env, true) else (env, false).

(** The same store after [link]. *)
Definition linked (inst : JSWebAssemblyInstance) : VM :=
  snd (link slotPut 0%nat (unlinked inst)).

(** A start function that does nothing. *)
Definition idle : nat -> M VM unit := fun _ => mret tt.

Definition functionExport (name : string) (index : Z) : Export :=
  {| field := name; kind := Function; kindIndex := index |}.

(** Two exports of function 0, which an element segment also puts into
    slot 0 of the table. *)
Definition twice : JSWebAssemblyModule :=
  sampleModule [functionExport "a" 0; functionExport "b" 0]
    [{| offset := 0; functionIndices := [0] |}] [] 0.

(** The element segment with offset 5 and three function indices. *)
Definition threeAtFive : Element := {| offset := 5; functionIndices := [0; 0; 0] |}.

(** An element segment at the last 32-bit offset. *)
Definition twoAtMax : Element := {| offset := 2 ^ 32 - 1; functionIndices := [0; 0] |}.

(** The data segment of ten bytes at offset 5. *)
Definition tenAtFive : Segment :=
  {| segment_offset := 5; sizeInBytes := 10; bytes := replicate 10 Byte.x2a |}.

(** An empty data segment at [offset]. *)
Definition emptyAt (offset : Z) : Segment :=
  {| segment_offset := offset; sizeInBytes := 0; bytes := [] |}.

(** A module that exports function 0 although function 0 is an import. *)
Definition reexport : JSWebAssemblyModule :=
  sampleModule [functionExport "f" 0] [] [] 1.

(** A module whose element segment names function 0, an import. *)
Definition importInTable : JSWebAssemblyModule :=
  sampleModule [] [{| offset := 0; functionIndices := [1; 0] |}] [] 1.

(** A module with the element segment [threeAtFive] only. *)
Definition tableOnly : JSWebAssemblyModule := sampleModule [] [threeAtFive] [] 0.

(** A module with the data segment [tenAtFive] only. *)
Definition dataOnly : JSWebAssemblyModule := sampleModule [] [] [tenAtFive] 0.

(** A module with one empty data segment, 1000 bytes past a memory of 12
    bytes. *)
Definition emptyOnly : JSWebAssemblyModule := sampleModule [] [] [emptyAt (12 + 1000)] 0.

(** One element, a data segment that fits and one that does not. *)
Definition partial : JSWebAssemblyModule :=
  sampleModule [] [{| offset := 1; functionIndices := [0] |}]
    [{| segment_offset := 0; sizeInBytes := 2; bytes := [Byte.x01; Byte.x02] |}; tenAtFive] 0.

(** A module that exports function 0 and whose start function, index 1,
    is not exported. *)
Definition started : JSWebAssemblyModule :=
  {| moduleInformation :=
       {| exports := [functionExport "run" 0];
          startFunctionIndexSpace := Some 1;
          elements := [];
          data := [];
          globals := [] |};
     exportSymbolTable := ["run"];
     importCount := 0;
     jsEntrypointCalleeFromFunctionIndexSpace := fun functionIndexSpace => functionIndexSpace;
     wasmEntrypointCalleeFromFunctionIndexSpace := fun functionIndexSpace => functionIndexSpace;
     signatureForFunctionIndexSpace := fun _ => nullary |}.

(** A module that exports one entity of each kind; its global 0 is an
    immutable i32. *)
Definition fourKinds : JSWebAssemblyModule :=
  {| moduleInformation :=
       {| exports := [functionExport "f" 0;
                      {| field := "t"; kind := Table; kindIndex := 0 |};
                      {| field := "m"; kind := Memory; kindIndex := 0 |};
                      {| field := "g"; kind := Global; kindIndex := 0 |}];
          startFunctionIndexSpace := None;
          elements := [];
          data := [];
          globals := [{| mutability := Immutable; type := I32 |}] |};
     exportSymbolTable := ["f"; "t"; "m"; "g"];
     importCount := 0;
     jsEntrypointCalleeFromFunctionIndexSpace := fun functionIndexSpace => functionIndexSpace;
     wasmEntrypointCalleeFromFunctionIndexSpace := fun functionIndexSpace => functionIndexSpace;
     signatureForFunctionIndexSpace := fun _ => nullary |}.

(** An instance of [fourKinds] whose global cell holds 2^32 + 5. *)
Definition fourKindsInstance : JSWebAssemblyInstance :=
  {| module := fourKinds;
     table := Some (replicate 2 None);
     instance_memory := Some {| memory := Some (replicate 4 Byte.x00) |};
     instance_globals := [2 ^ 32 + 5] |}.

(** The same instance without a table. *)
Definition tableless : JSWebAssemblyInstance :=
  {| module := fourKinds;
     table := None;
     instance_memory := Some {| memory := Some (replicate 4 Byte.x00) |};
     instance_globals := [2 ^ 32 + 5] |}.

(** Two data segments that overlap at offset 2. *)
Definition overlapping : JSWebAssemblyModule :=
  sampleModule [] []
    [{| segment_offset := 0; sizeInBytes := 3; bytes := [Byte.x01; Byte.x02; Byte.x03] |};
     {| segment_offset := 2; sizeInBytes := 2; bytes := [Byte.x0a; Byte.x0b] |}] 0.

(** A start function that throws. *)
Definition throwing : nat -> M VM unit := fun _ => throwException (ScriptError "trap").

End ModuleRecordExamples.

(** * Properties *)

(** ** Reasoning about completions *)

Ltac unfold_M :=
  unfold mbind, M_bind, bind, mret, M_ret, ret, get, modify, crash,
    throwException, RELEASE_ASSERT in *.

Lemma bind_Normal {S A B} (c : M S A) (k : A -> M S B) s a s' :
  c s = (Normal a, s') -> (c ≫= k) s = k a s'.
Proof. intros H. unfold mbind, M_bind, bind. now rewrite H. Qed.

Lemma bind_Throw {S A B} (c : M S A) (k : A -> M S B) s e s' :
  c s = (Throw e, s') -> (c ≫= k) s = (Throw e, s').
Proof. intros H. unfold mbind, M_bind, bind. now rewrite H. Qed.

Lemma bind_Crash {S A B} (c : M S A) (k : A -> M S B) s why s' :
  c s = (Crash why, s') -> (c ≫= k) s = (Crash why, s').
Proof. intros H. unfold mbind, M_bind, bind. now rewrite H. Qed.

Lemma bind_get {S B} (k : S -> M S B) s : (get ≫= k) s = k s s.
Proof. reflexivity. Qed.

Lemma forEach_app {S A} (body : A -> M S unit) xs ys s s' :
  forEach xs body s = (Normal tt, s') ->
  forEach (xs ++ ys) body s = forEach ys body s'.
Proof.
  revert s. induction xs as [|x xs IH]; intros s H; simpl in *.
  - unfold ret in H. now inversion H.
  - unfold mbind, M_bind, bind in *.
    destruct (body x s) as [[[]|e|why] s1]; try discriminate.
    now apply IH.
Qed.

Lemma forEach_cons_Throw {S A} (body : A -> M S unit) x ys s e s' :
  body x s = (Throw e, s') ->
  forEach (x :: ys) body s = (Throw e, s').
Proof. intros H. simpl. now apply bind_Throw. Qed.

(** ** The executable allocator *)

Section AllocatorProperties.

Import ExecutableAllocator.

Variable config : Config.
Variable OSAllocator_reserve : list Z -> Z -> option Z.

Lemma size_t_range x : 0 <= size_t x < 2 ^ 64.
Proof. unfold size_t, wrap. apply Z.mod_pos_bound. lia. Qed.

Lemma size_t_small x : 0 <= x < 2 ^ 64 -> size_t x = x.
Proof. intros H. unfold size_t, wrap. now apply Z.mod_small. Qed.

Lemma bytesAllocatedByAllAllocators_range w :
  0 <= bytesAllocatedByAllAllocators w < 2 ^ 64.
Proof.
  unfold bytesAllocatedByAllAllocators.
  apply (map_fold_weak_ind (fun total _ => 0 <= total < 2 ^ 64)).
  - lia.
  - intros. apply size_t_range.
Qed.

Lemma allocateNewSpace_over_limit this numPages w limit :
  EXECUTABLE_MEMORY_LIMIT config = Some limit ->
  size_t limit <= bytesAllocatedByAllAllocators w ->
  allocateNewSpace config OSAllocator_reserve this numPages w
  = (Normal (newNumPages config numPages, None), w).
Proof.
  intros Hl Hge. unfold allocateNewSpace. unfold_M. rewrite Hl.
  destruct (Z.leb_spec (size_t limit) (bytesAllocatedByAllAllocators w)); [reflexivity | lia].
Qed.

Lemma allocateNewSpace_under_limit this numPages w limit a :
  EXECUTABLE_MEMORY_LIMIT config = Some limit ->
  allocators w !! this = Some a ->
  bytesAllocatedByAllAllocators w < size_t limit ->
  let bytes := size_t (newNumPages config numPages * pageSize config) in
  reserveRequests (snd (allocateNewSpace config OSAllocator_reserve this numPages w))
  = reserveRequests w ++ [bytes]
  /\ fst (allocateNewSpace config OSAllocator_reserve this numPages w)
     = match OSAllocator_reserve (reserveRequests w) bytes with
       | Some p => Normal (newNumPages config numPages, Some p)
       | None => Crash "RELEASE_ASSERT(reservation)"
       end.
Proof.
  intros Hl Ha Hlt bytes. unfold allocateNewSpace. unfold_M. rewrite Hl.
  destruct (Z.leb_spec (size_t limit) (bytesAllocatedByAllAllocators w)); [lia |].
  unfold PageReservation_reserve. fold bytes.
  destruct (OSAllocator_reserve (reserveRequests w) bytes) as [p|]; simpl.
  - unfold derefAllocator. simpl. rewrite Ha. simpl. auto.
  - auto.
Qed.

Lemma clampedBytesAllocated_range limit w added :
  0 < limit < 2 ^ 64 -> 0 <= clampedBytesAllocated limit w added <= limit.
Proof.
  intros Hl. unfold clampedBytesAllocated. rewrite (size_t_small limit) by lia.
  pose proof (size_t_range (bytesAllocatedByAllAllocators w + added)).
  destruct (Z.leb_spec limit (size_t (bytesAllocatedByAllAllocators w + added))); lia.
Qed.

Lemma clampedBytesAllocated_mono limit w a1 a2 :
  0 < limit < 2 ^ 64 -> 0 <= a1 <= a2 ->
  bytesAllocatedByAllAllocators w + a2 < 2 ^ 64 ->
  clampedBytesAllocated limit w a1 <= clampedBytesAllocated limit w a2.
Proof.
  intros Hl Ha Hnowrap. unfold clampedBytesAllocated.
  pose proof (bytesAllocatedByAllAllocators_range w).
  rewrite !size_t_small by lia.
  destruct (Z.leb_spec limit (bytesAllocatedByAllAllocators w + a1));
    destruct (Z.leb_spec limit (bytesAllocatedByAllAllocators w + a2)); lia.
Qed.

Lemma memoryPressureMultiplier_limited limit w added :
  EXECUTABLE_MEMORY_LIMIT config = Some limit -> 0 < limit < 2 ^ 64 ->
  memoryPressureMultiplier config w added
  = let b := clampedBytesAllocated limit w added in
    if limit - b =? 0 then Infinity else Finite (Qmake limit (Z.to_pos (limit - b))).
Proof.
  intros Hl Hr. unfold memoryPressureMultiplier. rewrite Hl.
  pose proof (clampedBytesAllocated_range limit w added Hr) as Hb.
  cbv zeta. rewrite (size_t_small (limit - _)) by lia.
  unfold double_div.
  destruct (Z.eqb_spec (limit - clampedBytesAllocated limit w added) 0) as [E|E].
  - destruct (Z.eqb_spec limit 0); [lia | reflexivity].
  - unfold double_lt, double_1.
    destruct (Qle_bool 1 (Qmake limit (Z.to_pos (limit - clampedBytesAllocated limit w added)))) eqn:Q;
      [reflexivity |].
    exfalso. assert (Qle_bool 1 (Qmake limit (Z.to_pos (limit - clampedBytesAllocated limit w added))) = true);
      [| congruence].
    apply Qle_bool_iff. unfold Qle. simpl. rewrite Z2Pos.id by lia. lia.
Qed.


Lemma MetaAllocator_allocate_growth_fails this sizeInBytes w limit a :
  EXECUTABLE_MEMORY_LIMIT config = Some limit ->
  allocators w !! this = Some a ->
  findAndRemoveFreeSpace (m_freeSpace a) sizeInBytes = None ->
  size_t limit <= bytesAllocatedByAllAllocators w ->
  MetaAllocator_allocate config OSAllocator_reserve this sizeInBytes w = (Normal None, w).
Proof.
  intros Hl Ha Hfree Hge. unfold MetaAllocator_allocate.
  erewrite bind_Normal by (unfold derefAllocator; now rewrite Ha).
  rewrite Hfree.
  erewrite bind_Normal by (eapply allocateNewSpace_over_limit; eassumption).
  reflexivity.
Qed.

Lemma MetaAllocator_allocate_from_free_space this sizeInBytes w a p free :
  allocators w !! this = Some a ->
  findAndRemoveFreeSpace (m_freeSpace a) sizeInBytes = Some (p, free) ->
  fst (MetaAllocator_allocate config OSAllocator_reserve this sizeInBytes w)
  = Normal (Some {| start := p; ExecutableAllocator.sizeInBytes := sizeInBytes |}).
Proof.
  intros Ha Hfree. unfold MetaAllocator_allocate.
  erewrite bind_Normal by (unfold derefAllocator; now rewrite Ha).
  rewrite Hfree. reflexivity.
Qed.

(** C7 (as amended).  With a limit configured, [allocateNewSpace] compares
    the bytes allocated by all registered allocators with the limit before
    it reserves.  When the total has reached the limit it returns null and
    leaves the world as it was (no reservation is requested), and an
    [allocate] that has to grow returns null.  When the total is below the
    limit the reservation is requested: the call returns its base, or
    aborts when the operating system refuses.  An [allocate] that the free
    space can serve returns a handle whatever the total is. *)
Theorem allocateNewSpace_checks_limit_before_reserving this numPages sizeInBytes w limit a :
  EXECUTABLE_MEMORY_LIMIT config = Some limit ->
  allocators w !! this = Some a ->
  (size_t limit <= bytesAllocatedByAllAllocators w ->
     allocateNewSpace config OSAllocator_reserve this numPages w
     = (Normal (newNumPages config numPages, None), w)
     /\ (findAndRemoveFreeSpace (m_freeSpace a) sizeInBytes = None ->
         MetaAllocator_allocate config OSAllocator_reserve this sizeInBytes w = (Normal None, w)))
  /\ (bytesAllocatedByAllAllocators w < size_t limit ->
      let bytes := size_t (newNumPages config numPages * pageSize config) in
      reserveRequests (snd (allocateNewSpace config OSAllocator_reserve this numPages w))
      = reserveRequests w ++ [bytes]
      /\ fst (allocateNewSpace config OSAllocator_reserve this numPages w)
         = match OSAllocator_reserve (reserveRequests w) bytes with
           | Some p => Normal (newNumPages config numPages, Some p)
           | None => Crash "RELEASE_ASSERT(reservation)"
           end)
  /\ (forall p free,
        findAndRemoveFreeSpace (m_freeSpace a) sizeInBytes = Some (p, free) ->
        fst (MetaAllocator_allocate config OSAllocator_reserve this sizeInBytes w)
        = Normal (Some {| start := p; ExecutableAllocator.sizeInBytes := sizeInBytes |})).
Proof.
  intros Hl Ha. split; [| split].
  - intros Hge. split.
    + now apply allocateNewSpace_over_limit with limit.
    + intros Hfree. now apply MetaAllocator_allocate_growth_fails with limit a.
  - intros Hlt. now apply allocateNewSpace_under_limit with limit a.
  - intros p free Hfree. now apply MetaAllocator_allocate_from_free_space with a free.
Qed.

(** C8.  [ExecutableAllocator::allocate] hands the result of the
    underlying allocation to its caller, a null result included, unless
    the result is null and the effort is [JITCompilationMustSucceed]: then
    the release assertion aborts the process. *)
Theorem allocate_null_is_fatal_only_when_must_succeed
    (baseAllocate : nat -> Z -> M World (option ExecutableMemoryHandle))
    sizeInBytes effort w this result w' :
  gAllocator w = Some this ->
  baseAllocate this sizeInBytes w = (Normal result, w') ->
  (result = None -> effort <> JITCompilationMustSucceed ->
     allocate baseAllocate sizeInBytes effort w = (Normal None, w'))
  /\ (result = None -> effort = JITCompilationMustSucceed ->
      allocate baseAllocate sizeInBytes effort w
      = (Crash "RELEASE_ASSERT(result || effort != JITCompilationMustSucceed)", w'))
  /\ (forall handle, result = Some handle ->
      allocate baseAllocate sizeInBytes effort w = (Normal (Some handle), w')).
Proof.
  intros Hg Hbase. unfold allocate.
  assert (Hrun : forall k : option ExecutableMemoryHandle -> M World (option ExecutableMemoryHandle),
            (get ≫= (fun w0 => match gAllocator w0 with
                               | Some this0 => baseAllocate this0 sizeInBytes ≫= k
                               | None => crash "null gAllocator"
                               end)) w = k result w').
  { intros k. unfold mbind at 1. unfold M_bind, bind, get. rewrite Hg.
    now apply bind_Normal. }
  rewrite Hrun. split; [| split].
  - intros -> He. destruct effort; [reflexivity | congruence].
  - intros -> ->. reflexivity.
  - intros handle ->. reflexivity.
Qed.

(** C9.  [memoryPressureMultiplier] is non-decreasing in its argument and
    at least [1.0].  Without [EXECUTABLE_MEMORY_LIMIT] (the file as it is:
    the define is commented out) it returns exactly [1.0], so it is at
    least [1.0] and non-decreasing for every argument.  With a limit
    defined (a positive [size_t]) it is at least [1.0] for every argument,
    and non-decreasing over the arguments whose sum with the bytes already
    allocated fits [size_t], the range in which the sum of the function is
    the sum of its operands. *)
Theorem memoryPressureMultiplier_bounds w :
  (EXECUTABLE_MEMORY_LIMIT config = None ->
   (forall added, memoryPressureMultiplier config w added = double_1)
   /\ (forall added, double_le double_1 (memoryPressureMultiplier config w added) = true)
   /\ (forall a1 a2,
         double_le (memoryPressureMultiplier config w a1)
                   (memoryPressureMultiplier config w a2) = true))
  /\ (forall limit,
        EXECUTABLE_MEMORY_LIMIT config = Some limit -> 0 < limit < 2 ^ 64 ->
        (forall added, double_le double_1 (memoryPressureMultiplier config w added) = true)
        /\ (forall a1 a2,
              0 <= a1 <= a2 ->
              bytesAllocatedByAllAllocators w + a2 < 2 ^ 64 ->
              double_le (memoryPressureMultiplier config w a1)
                        (memoryPressureMultiplier config w a2) = true)).
Proof.
  split.
  - intros Hl.
    assert (Hone : forall added, memoryPressureMultiplier config w added = double_1).
    { intros added. unfold memoryPressureMultiplier. rewrite Hl. reflexivity. }
    split; [exact Hone | split].
    + intros added. rewrite Hone. reflexivity.
    + intros a1 a2. rewrite !Hone. reflexivity.
  - intros limit Hl Hr. split.
    + intros added. rewrite (memoryPressureMultiplier_limited limit) by assumption.
      pose proof (clampedBytesAllocated_range limit w added Hr) as Hb. cbv zeta.
      destruct (Z.eqb_spec (limit - clampedBytesAllocated limit w added) 0); [reflexivity |].
      simpl. apply Qle_bool_iff. unfold Qle. simpl. rewrite Z2Pos.id by lia. lia.
    + intros a1 a2 Ha Hnowrap.
      rewrite !(memoryPressureMultiplier_limited limit) by assumption.
      pose proof (clampedBytesAllocated_range limit w a1 Hr) as Hb1.
      pose proof (clampedBytesAllocated_range limit w a2 Hr) as Hb2.
      pose proof (clampedBytesAllocated_mono limit w a1 a2 Hr Ha Hnowrap) as Hm.
      cbv zeta.
      destruct (Z.eqb_spec (limit - clampedBytesAllocated limit w a2) 0) as [E2|E2];
        destruct (Z.eqb_spec (limit - clampedBytesAllocated limit w a1) 0) as [E1|E1];
        try reflexivity; [lia |].
      simpl. apply Qle_bool_iff. unfold Qle. simpl. rewrite !Z2Pos.id by lia. nia.
Qed.

End AllocatorProperties.

Section AllocatorRuns.

Import ExecutableAllocator AllocatorExamples.

Lemma allocateNewSpace_checks_limit_witness :
  (allocateNewSpace limited os 0 1 atLimit = (Normal (16, None), atLimit)
   /\ MetaAllocator_allocate limited os 0 64000 atLimit = (Normal None, atLimit))
  /\ (reserveRequests (snd (allocateNewSpace limited os 0 1 fresh)) = [65536]
      /\ fst (allocateNewSpace limited os 0 1 fresh) = Normal (16, Some (2 ^ 32))).
Proof.
  split.
  - destruct (allocateNewSpace_checks_limit_before_reserving limited os 0%nat 1 64000 atLimit 1000000
                {| m_bytesAllocated := 1000000; m_bytesCommitted := 0;
                   m_freeSpace := [(4295967296, 48576)];
                   reservations := [{| base := 4294967296; size := 1048576 |}] |}
                eq_refl eq_refl) as [Hover _].
    destruct Hover as [Hnull Hgrow]; [vm_compute; discriminate |].
    split; [exact Hnull | apply Hgrow; reflexivity].
  - destruct (allocateNewSpace_checks_limit_before_reserving limited os 0%nat 1 64 fresh 1000000
                emptyAllocator eq_refl eq_refl) as (_ & Hunder & _).
    apply Hunder. vm_compute. reflexivity.
Defined.

(** The bytes allocated have reached the limit, and [allocate] still
    returns a handle: the request fits the free space left in the chunk
    reserved earlier, so no growth is attempted. *)
Lemma allocate_succeeds_at_limit :
  EXECUTABLE_MEMORY_LIMIT limited = Some 1000000
  /\ bytesAllocatedByAllAllocators atLimit = 1000000
  /\ fst (allocate (MetaAllocator_allocate limited os) 64 JITCompilationCanFail atLimit)
     = Normal (Some {| start := 4295967296; sizeInBytes := 64 |}).
Proof. vm_compute. auto. Qed.

Lemma allocate_null_witness :
  allocate (MetaAllocator_allocate limited os) 64 JITCompilationCanFail (full 1000000)
  = (Normal None, full 1000000)
  /\ allocate (MetaAllocator_allocate limited os) 64 JITCompilationMustSucceed (full 1000000)
     = (Crash "RELEASE_ASSERT(result || effort != JITCompilationMustSucceed)", full 1000000).
Proof.
  split.
  - apply (allocate_null_is_fatal_only_when_must_succeed (MetaAllocator_allocate limited os)
             64 JITCompilationCanFail (full 1000000) 0%nat None (full 1000000));
      [reflexivity | vm_compute; reflexivity | reflexivity | discriminate].
  - apply (allocate_null_is_fatal_only_when_must_succeed (MetaAllocator_allocate limited os)
             64 JITCompilationMustSucceed (full 1000000) 0%nat None (full 1000000));
      [reflexivity | vm_compute; reflexivity | reflexivity | reflexivity].
Defined.

Lemma memoryPressureMultiplier_witness :
  (memoryPressureMultiplier unlimited (full 1) 999999 = double_1
   /\ double_le double_1 (memoryPressureMultiplier unlimited (full 1) (2 ^ 64 - 1)) = true
   /\ double_le (memoryPressureMultiplier unlimited (full 1) 0)
                (memoryPressureMultiplier unlimited (full 1) (2 ^ 64 - 1)) = true)
  /\ double_le double_1 (memoryPressureMultiplier limited (full 1) (2 ^ 64 - 1)) = true
  /\ double_le (memoryPressureMultiplier limited (full 1) 10)
               (memoryPressureMultiplier limited (full 1) 500000) = true.
Proof.
  pose proof (memoryPressureMultiplier_bounds unlimited (full 1)) as [Hunlimited _].
  pose proof (memoryPressureMultiplier_bounds limited (full 1)) as [_ Hlimited].
  specialize (Hunlimited eq_refl).
  assert (Hrange : 0 < 1000000 < 2 ^ 64) by lia.
  specialize (Hlimited 1000000 eq_refl Hrange).
  destruct Hunlimited as (Hone & Hleast & Hmono).
  destruct Hlimited as (Hleast' & Hmono').
  split; [split; [apply Hone | split; [apply Hleast | apply Hmono]] |].
  split; [apply Hleast' |].
  apply Hmono'; [lia | vm_compute; reflexivity].
Defined.

(** Where the no-wrap range ends.  With the limit defined as 1000000 and one
    byte allocated, the argument 2^64 - 1 makes the [size_t] sum wrap to 0:
    the multiplier is 1000000/1000000, below the 1000000/999999 obtained
    for the argument 0.  The sum of the function is no longer the sum of
    its operands there. *)
Lemma memoryPressureMultiplier_wraps_beyond_size_t :
  size_t (bytesAllocatedByAllAllocators (full 1) + (2 ^ 64 - 1)) = 0
  /\ memoryPressureMultiplier limited (full 1) 0 = Finite (Qmake 1000000 999999)
  /\ memoryPressureMultiplier limited (full 1) (2 ^ 64 - 1) = Finite (Qmake 1000000 1000000)
  /\ double_le (memoryPressureMultiplier limited (full 1) 0)
               (memoryPressureMultiplier limited (full 1) (2 ^ 64 - 1)) = false.
Proof. vm_compute. repeat split; congruence. Qed.

End AllocatorRuns.

(** ** The module record: data segments *)

Section DataSegments.

Import Wasm WebAssemblyModuleRecord.

Lemma memcpy_run instance offset source vm inst jsMemory contents :
  instances vm !! instance = Some inst ->
  instance_memory inst = Some jsMemory ->
  memory jsMemory = Some contents ->
  memcpy instance offset source vm
  = (Normal tt,
     setInstances <[instance := setMemory {| memory := Some (list_inserts (Z.to_nat offset) source contents) |} inst]> vm).
Proof.
  intros Hi Hm Hc. unfold memcpy, modify. f_equal.
  unfold setInstances. f_equal.
  apply list_eq. intros j.
  destruct (decide (instance = j)) as [<-|Hne].
  - rewrite list_lookup_alter_eq, Hi. simpl.
    rewrite list_lookup_insert_eq by (now apply lookup_lt_Some with inst).
    unfold writeMemory. rewrite Hm. destruct jsMemory as [m]. simpl in Hc. now rewrite Hc.
  - now rewrite list_lookup_alter_ne, list_lookup_insert_ne.
Qed.

Lemma evaluateSegment_Throw_keeps_store instance memorySize segment vm e :
  fst (evaluateSegment instance memorySize segment vm) = Throw e ->
  snd (evaluateSegment instance memorySize segment vm) = vm.
Proof.
  unfold evaluateSegment.
  destruct (sizeInBytes segment =? 0); [discriminate |].
  destruct (memorySize <? sizeInBytes segment); [reflexivity |].
  destruct (wrap 32 (memorySize - sizeInBytes segment) <? segment_offset segment);
    [reflexivity | discriminate].
Qed.

Lemma evaluateSegment_keeps_tables instance memorySize segment vm :
  let vm' := snd (evaluateSegment instance memorySize segment vm) in
  functions vm' = functions vm
  /\ table <$> instances vm' = table <$> instances vm
  /\ m_startFunction vm' = m_startFunction vm.
Proof.
  unfold evaluateSegment.
  destruct (sizeInBytes segment =? 0); [now simpl |].
  destruct (memorySize <? sizeInBytes segment); [now simpl |].
  destruct (wrap 32 (memorySize - sizeInBytes segment) <? segment_offset segment); [now simpl |].
  simpl. repeat split.
  apply list_eq. intros j. rewrite !list_lookup_fmap.
  destruct (decide (instance = j)) as [<-|Hne].
  - rewrite list_lookup_alter_eq. destruct (instances vm !! instance) as [inst|]; [| reflexivity].
    simpl. f_equal. unfold writeMemory.
    destruct (instance_memory inst) as [[[contents|]]|]; reflexivity.
  - now rewrite list_lookup_alter_ne.
Qed.

(** C3.  For a data segment of non-zero length, against a memory of
    [memorySize] bytes: when [memorySize < sizeInBytes] the step throws the
    "segment is too big" RangeError; otherwise, when
    [offset > memorySize - sizeInBytes], it throws the "segment writes
    outside of memory" RangeError; otherwise it returns normally and the
    memory holds the bytes of the segment at [offset, offset + sizeInBytes)
    and its former bytes everywhere else. *)
Theorem evaluateSegment_checks_then_copies instance segment vm inst jsMemory contents :
  instances vm !! instance = Some inst ->
  instance_memory inst = Some jsMemory ->
  memory jsMemory = Some contents ->
  WasmMemory_size jsMemory < 2 ^ 32 ->
  uint32_t (segment_offset segment) ->
  0 < sizeInBytes segment < 2 ^ 32 ->
  Z.of_nat (length (bytes segment)) = sizeInBytes segment ->
  let memorySize := WasmMemory_size jsMemory in
  (memorySize < sizeInBytes segment ->
     evaluateSegment instance memorySize segment vm
     = (Throw (RangeError (dataSegmentMessage memorySize (sizeInBytes segment)
                             (segment_offset segment) segmentIsTooBig)), vm))
  /\ (sizeInBytes segment <= memorySize ->
      memorySize - sizeInBytes segment < segment_offset segment ->
      evaluateSegment instance memorySize segment vm
      = (Throw (RangeError (dataSegmentMessage memorySize (sizeInBytes segment)
                              (segment_offset segment) segmentWritesOutsideOfMemory)), vm))
  /\ (sizeInBytes segment <= memorySize ->
      segment_offset segment <= memorySize - sizeInBytes segment ->
      exists contents',
        evaluateSegment instance memorySize segment vm
        = (Normal tt, setInstances <[instance := setMemory {| memory := Some contents' |} inst]> vm)
        /\ length contents' = length contents
        /\ (forall i, (i < length (bytes segment))%nat ->
              contents' !! (Z.to_nat (segment_offset segment) + i)%nat = bytes segment !! i)
        /\ (forall j, (j < Z.to_nat (segment_offset segment)
                       \/ Z.to_nat (segment_offset segment) + length (bytes segment) <= j)%nat ->
              contents' !! j = contents !! j)).
Proof.
  intros Hi Hm Hc Hsize Hoff Hlen Hbytes memorySize.
  assert (Hms : memorySize = Z.of_nat (length contents)).
  { unfold memorySize, WasmMemory_size. now rewrite Hc. }
  unfold uint32_t in Hoff. unfold evaluateSegment.
  destruct (Z.eqb_spec (sizeInBytes segment) 0) as [E|_]; [lia |].
  split; [| split].
  - intros Hbig. destruct (Z.ltb_spec memorySize (sizeInBytes segment)); [reflexivity | lia].
  - intros Hfit Hout. destruct (Z.ltb_spec memorySize (sizeInBytes segment)); [lia |].
    unfold wrap. rewrite Z.mod_small by (fold memorySize in Hsize; lia).
    destruct (Z.ltb_spec (memorySize - sizeInBytes segment) (segment_offset segment)); [reflexivity | lia].
  - intros Hfit Hin. destruct (Z.ltb_spec memorySize (sizeInBytes segment)); [lia |].
    unfold wrap. rewrite Z.mod_small by (fold memorySize in Hsize; lia).
    destruct (Z.ltb_spec (memorySize - sizeInBytes segment) (segment_offset segment)); [lia |].
    rewrite take_ge by lia.
    exists (list_inserts (Z.to_nat (segment_offset segment)) (bytes segment) contents).
    split; [now apply memcpy_run with jsMemory | split; [| split]].
    + apply length_inserts.
    + intros i Hlt. rewrite list_lookup_inserts by lia. f_equal. lia.
    + intros j [Hj|Hj].
      * now apply list_lookup_inserts_lt.
      * now apply list_lookup_inserts_ge.
Qed.

(** C4.  A data segment of length zero is skipped: whatever its offset and
    the size of the memory, the step returns normally and the store is the
    one it started from; so does the whole second phase when every segment
    is empty and the memory is realized. *)
Theorem evaluateSegment_skips_empty instance memorySize segment vm :
  sizeInBytes segment = 0 ->
  evaluateSegment instance memorySize segment vm = (Normal tt, vm)
  /\ (forall inst jsMemory contents,
        instances vm !! instance = Some inst ->
        instance_memory inst = Some jsMemory ->
        memory jsMemory = Some contents ->
        Forall (fun s => sizeInBytes s = 0) (data (moduleInformation (module inst))) ->
        evaluateData instance vm = (Normal tt, vm)).
Proof.
  intros Hz. split.
  - unfold evaluateSegment. now rewrite Hz.
  - intros inst jsMemory contents Hi Hm Hc Hall. unfold evaluateData.
    erewrite bind_Normal by (unfold derefInstance; now rewrite Hi).
    destruct (data (moduleInformation (module inst))) as [|s0 rest] eqn:Hd; [reflexivity |].
    rewrite Hm, Hc. clear Hd.
    induction Hall as [|s l Hs Hl IH]; [reflexivity |].
    simpl. erewrite bind_Normal; [exact IH |].
    unfold evaluateSegment. now rewrite Hs.
Qed.

End DataSegments.

Section DataSegmentRuns.

Import Wasm WebAssemblyModuleRecord ModuleRecordExamples.

Lemma evaluateSegment_witness :
  evaluateSegment 0 12 tenAtFive (unlinked (sampleInstance dataOnly 8 12))
  = (Throw (RangeError (dataSegmentMessage 12 10 5 segmentWritesOutsideOfMemory)),
     unlinked (sampleInstance dataOnly 8 12))
  /\ dataSegmentMessage 12 10 5 segmentWritesOutsideOfMemory
     = "Invalid data segment initialization: segment of 10 bytes memory of 12 bytes, at offset 5, segment writes outside of memory"%string
  /\ exists contents',
       fst (evaluateSegment 0 20 tenAtFive (unlinked (sampleInstance dataOnly 8 20))) = Normal tt
       /\ length contents' = 20%nat
       /\ (forall i, (i < 10)%nat -> contents' !! (5 + i)%nat = Some Byte.x2a)
       /\ (forall j, (j < 5 \/ 15 <= j)%nat -> contents' !! j = replicate 20 Byte.x00 !! j)
       /\ fst (evaluate idle (linked (sampleInstance dataOnly 8 12)))
          = Throw (RangeError (dataSegmentMessage 12 10 5 segmentWritesOutsideOfMemory))
       /\ fst (evaluate idle (linked (sampleInstance dataOnly 8 20))) = Normal jsUndefined
       /\ memoryOf (snd (evaluate idle (linked (sampleInstance dataOnly 8 20)))) 0
          = Some (replicate 5 Byte.x00 ++ replicate 10 Byte.x2a ++ replicate 5 Byte.x00).
Proof.
  split.
  - apply (evaluateSegment_checks_then_copies 0%nat tenAtFive
             (unlinked (sampleInstance dataOnly 8 12)) (sampleInstance dataOnly 8 12)
             {| memory := Some (replicate 12 Byte.x00) |} (replicate 12 Byte.x00));
      try reflexivity; vm_compute; try split; congruence.
  - split; [vm_compute; reflexivity |].
    destruct (evaluateSegment_checks_then_copies 0%nat tenAtFive
                (unlinked (sampleInstance dataOnly 8 20)) (sampleInstance dataOnly 8 20)
                {| memory := Some (replicate 20 Byte.x00) |} (replicate 20 Byte.x00))
      as (_ & _ & Hcopy); try reflexivity; try (vm_compute; try split; congruence).
    destruct Hcopy as (contents' & Hrun & Hlen & Hin & Hout);
      try (vm_compute; congruence).
    exists contents'. split; [| split; [| split]].
    + change (WasmMemory_size {| memory := Some (replicate 20 Byte.x00) |}) with 20 in Hrun.
      now rewrite Hrun.
    + exact Hlen.
    + intros i Hi. specialize (Hin i Hi).
      change (contents' !! (5 + i)%nat = replicate 10 Byte.x2a !! i) in Hin.
      rewrite Hin. apply (lookup_replicate_2 10 Byte.x2a i Hi).
    + split; [exact Hout |]. vm_compute. repeat split; reflexivity.
Defined.

Lemma evaluateSegment_empty_witness :
  evaluateSegment 0 12 (emptyAt (12 + 1000)) (unlinked (sampleInstance dataOnly 8 12))
  = (Normal tt, unlinked (sampleInstance dataOnly 8 12))
  /\ evaluateData 0 (unlinked (sampleInstance emptyOnly 8 12))
     = (Normal tt, unlinked (sampleInstance emptyOnly 8 12))
  /\ evaluate idle (linked (sampleInstance emptyOnly 8 12))
     = (Normal jsUndefined, linked (sampleInstance emptyOnly 8 12)).
Proof.
  split; [| split].
  - apply (evaluateSegment_skips_empty 0%nat 12 (emptyAt (12 + 1000))). reflexivity.
  - apply (proj2 (evaluateSegment_skips_empty 0%nat 12 (emptyAt (12 + 1000))
             (unlinked (sampleInstance emptyOnly 8 12))
             eq_refl)
             (sampleInstance emptyOnly 8 12)
             {| memory := Some (replicate 12 Byte.x00) |} (replicate 12 Byte.x00));
      try reflexivity.
    repeat constructor.
  - vm_compute. reflexivity.
Defined.

End DataSegmentRuns.

(** ** The module record: element segments *)

Section ElementSegments.

Import Wasm WebAssemblyModuleRecord.

Lemma derefInstance_run instance vm inst :
  instances vm !! instance = Some inst ->
  derefInstance instance vm = (Normal inst, vm).
Proof. intros H. unfold derefInstance. now rewrite H. Qed.

Lemma Table_setFunction_run instance index function vm inst slots :
  instances vm !! instance = Some inst ->
  table inst = Some slots ->
  0 <= index < Z.of_nat (length slots) ->
  Table_setFunction instance index function vm
  = (Normal tt,
     setInstances <[instance := setTable (<[Z.to_nat index := Some function]> slots) inst]> vm).
Proof.
  intros Hi Ht Hr. unfold Table_setFunction.
  erewrite bind_Normal by (apply derefInstance_run; eassumption).
  rewrite Ht. unfold RELEASE_ASSERT.
  destruct (Z.ltb_spec index (Z.of_nat (length slots))); [reflexivity | lia].
Qed.

Lemma setElementFunctions_in_bounds instance module functionIndices :
  forall tableIndex vm inst slots,
    instances vm !! instance = Some inst ->
    table inst = Some slots ->
    Z.of_nat (length slots) < 2 ^ 32 ->
    0 <= tableIndex ->
    tableIndex + Z.of_nat (length functionIndices) <= Z.of_nat (length slots) ->
    fst (setElementFunctions instance module functionIndices tableIndex vm)
    = if noImport module functionIndices then Normal tt
      else Throw (RangeError tableValueWithImport).
Proof.
  induction functionIndices as [|functionIndex rest IH];
    intros tableIndex vm inst slots Hi Ht Hsize Hlo Hhi; [reflexivity |].
  simpl in Hhi. simpl.
  destruct (Z.ltb_spec functionIndex (importCount module)) as [Himp|Hloc].
  - destruct (Z.leb_spec (importCount module) functionIndex); [lia | reflexivity].
  - destruct (Z.leb_spec (importCount module) functionIndex); [| lia]. simpl.
    erewrite bind_Normal by reflexivity.
    erewrite bind_Normal by (eapply Table_setFunction_run; [exact Hi | exact Ht | lia]).
    unfold wrap. rewrite Z.mod_small by lia.
    eapply (IH (tableIndex + 1) _
              (setTable (<[Z.to_nat tableIndex := Some (length (functions vm))]> slots) inst)
              (<[Z.to_nat tableIndex := Some (length (functions vm))]> slots)).
    + simpl. apply list_lookup_insert_eq. now apply lookup_lt_Some with inst.
    + reflexivity.
    + rewrite length_insert. lia.
    + lia.
    + rewrite length_insert. lia.
Qed.

Lemma lastWrittenIndex_exact element :
  uint32_t (offset element) ->
  0 < Z.of_nat (length (functionIndices element)) < 2 ^ 32 ->
  lastWrittenIndex element
  = offset element + Z.of_nat (length (functionIndices element)) - 1.
Proof.
  unfold uint32_t, lastWrittenIndex, wrap. intros Ho Hc.
  rewrite (Z.mod_small (offset element)) by lia.
  rewrite (Z.mod_small (Z.of_nat _)) by lia.
  apply Z.mod_small. lia.
Qed.

Lemma evaluateElement_in_bounds instance module element vm inst slots :
  instances vm !! instance = Some inst ->
  table inst = Some slots ->
  Z.of_nat (length slots) < 2 ^ 32 ->
  uint32_t (offset element) ->
  0 < Z.of_nat (length (functionIndices element)) < 2 ^ 32 ->
  offset element + Z.of_nat (length (functionIndices element)) - 1 < Z.of_nat (length slots) ->
  fst (evaluateElement instance module element vm)
  = if noImport module (functionIndices element) then Normal tt
    else Throw (RangeError tableValueWithImport).
Proof.
  intros Hi Ht Hsize Ho Hc Hlt.
  pose proof (lastWrittenIndex_exact element Ho Hc) as Hlast.
  unfold evaluateElement.
  destruct (Z.eqb_spec (Z.of_nat (length (functionIndices element))) 0); [lia |].
  unfold Table_size.
  erewrite bind_Normal by (erewrite bind_Normal by (apply derefInstance_run; eassumption);
                           rewrite Ht; reflexivity).
  rewrite Hlast.
  destruct (Z.leb_spec (Z.of_nat (length slots))
              (offset element + Z.of_nat (length (functionIndices element)) - 1)); [lia |].
  unfold uint32_t in Ho.
  apply setElementFunctions_in_bounds with inst slots; try assumption; lia.
Qed.

(** C2.  For an element segment with a non-empty list of function
    indices, [lastWrittenIndex] is [offset + count - 1] without
    wrap-around, whatever 32-bit values the offset and the count have, and
    the segment throws the "out of bounds table index" RangeError exactly
    when [lastWrittenIndex >= table.size()].  A segment that passes the
    check writes its slots and returns normally, unless one of its function
    indices is an import (which is reported by a different error). *)
Theorem evaluateElement_bounds_check instance module element vm inst slots :
  instances vm !! instance = Some inst ->
  table inst = Some slots ->
  Z.of_nat (length slots) < 2 ^ 32 ->
  uint32_t (offset element) ->
  0 < Z.of_nat (length (functionIndices element)) < 2 ^ 32 ->
  let count := Z.of_nat (length (functionIndices element)) in
  lastWrittenIndex element = offset element + count - 1
  /\ (fst (evaluateElement instance module element vm) = Throw (RangeError outOfBoundsTableIndex)
      <-> Z.of_nat (length slots) <= offset element + count - 1)
  /\ (offset element + count - 1 < Z.of_nat (length slots) ->
      fst (evaluateElement instance module element vm)
      = if noImport module (functionIndices element) then Normal tt
        else Throw (RangeError tableValueWithImport)).
Proof.
  intros Hi Ht Hsize Ho Hc count.
  pose proof (lastWrittenIndex_exact element Ho Hc) as Hlast. fold count in Hlast.
  assert (Hin : offset element + count - 1 < Z.of_nat (length slots) ->
                fst (evaluateElement instance module element vm)
                = if noImport module (functionIndices element) then Normal tt
                  else Throw (RangeError tableValueWithImport)).
  { intros Hlt. now apply evaluateElement_in_bounds with inst slots. }
  split; [exact Hlast | split; [split |]].
  - intros Hthrow.
    destruct (Z.le_gt_cases (Z.of_nat (length slots)) (offset element + count - 1)) as [Hge|Hlt];
      [exact Hge |].
    rewrite (Hin Hlt) in Hthrow.
    destruct (noImport module (functionIndices element)); discriminate.
  - intros Hge. unfold evaluateElement. fold count.
    destruct (Z.eqb_spec count 0); [lia |].
    unfold Table_size.
    erewrite bind_Normal by (erewrite bind_Normal by (apply derefInstance_run; eassumption);
                             rewrite Ht; reflexivity).
    rewrite Hlast.
    destruct (Z.leb_spec (Z.of_nat (length slots)) (offset element + count - 1)); [reflexivity | lia].
  - exact Hin.
Qed.

End ElementSegments.

(** ** The module record: linking *)

Section Linking.

Import Wasm WebAssemblyModuleRecord.

Variable put : list string -> gmap string JSValue -> string -> JSValue -> gmap string JSValue * bool.

Lemma linkExport_reexported_import instance inst hasStart start env exp vm :
  kind exp = Function ->
  kindIndex exp < importCount (module inst) ->
  linkExport put instance inst hasStart start env exp vm
  = (Crash "RELEASE_ASSERT_NOT_REACHED()", vm).
Proof.
  intros Hk Hlt. unfold linkExport. rewrite Hk.
  destruct (Z.ltb_spec (kindIndex exp) (importCount (module inst))); [reflexivity | lia].
Qed.

Ltac case_put :=
  match goal with
  | |- context [put ?t ?e ?n ?v] => destruct (put t e n v) as [? []]; simpl; auto
  end.

Lemma linkExport_step instance inst hasStart start env exp vm :
  linkStep vm (linkExport put instance inst hasStart start env exp vm).
Proof.
  unfold linkExport, linkStep, loadGlobal, WebAssemblyFunction_create.
  unfold_M.
  destruct (kind exp); simpl.
  - destruct (kindIndex exp <? importCount (module inst)); [exact I |].
    destruct (hasStart && (start =? kindIndex exp)); simpl; case_put.
  - destruct (isSome (table inst)); simpl; [| exact I]. case_put.
  - destruct (isSome (instance_memory inst)); simpl; [| exact I]. case_put.
  - destruct (globals (moduleInformation (module inst)) !! Z.to_nat (kindIndex exp)) as [g|];
      [| exact I].
    destruct (type g); simpl; try exact I;
      destruct (instance_globals inst !! Z.to_nat (kindIndex exp)); simpl; try exact I;
      case_put.
Qed.

Lemma foldM_linkExport_step instance inst hasStart start exports :
  forall env vm,
    linkStep vm (foldM (linkExport put instance inst hasStart start) env exports vm).
Proof.
  induction exports as [|exp rest IH]; intros env vm; simpl.
  - unfold linkStep. simpl. auto.
  - pose proof (linkExport_step instance inst hasStart start env exp vm) as Hstep.
    unfold mbind, M_bind, bind.
    destruct (linkExport put instance inst hasStart start env exp vm) as [[env'|e|why] vm'];
      simpl in *; try easy.
    destruct Hstep as [Hm Hi]. specialize (IH env' vm').
    unfold linkStep in *.
    destruct (foldM (linkExport put instance inst hasStart start) env' rest vm') as [[?|?|?] ?];
      try easy.
    destruct IH. split; congruence.
Qed.

Lemma linkExports_step instance inst vm :
  linkStep vm (linkExports put instance inst vm).
Proof. apply foldM_linkExport_step. Qed.

Lemma foldM_linkExport_reexported_import instance inst hasStart start exports exp :
  exp ∈ exports ->
  kind exp = Function ->
  kindIndex exp < importCount (module inst) ->
  forall env vm,
    isCrash (fst (foldM (linkExport put instance inst hasStart start) env exports vm)) = true.
Proof.
  intros Hin Hk Hlt. induction Hin as [exp rest|exp other rest Hin IH]; intros env vm; simpl.
  - erewrite bind_Crash by (now apply linkExport_reexported_import). reflexivity.
  - pose proof (linkExport_step instance inst hasStart start env other vm) as Hstep.
    unfold mbind, M_bind, bind.
    destruct (linkExport put instance inst hasStart start env other vm) as [[env'|e|why] vm'];
      simpl in *; try easy.
    now apply IH.
Qed.

(** [link] from the point where the exports have gone through. *)
Lemma link_after_exports instance vm inst env vm1 :
  instances vm !! instance = Some inst ->
  linkExports put instance inst vm = (Normal env, vm1) ->
  match m_instance vm with
  | Some _ => fst (link put instance vm) = Crash "RELEASE_ASSERT(!m_instance)"
  | None => exists vm', link put instance vm = (Normal tt, vm')
                        /\ m_instance vm' = Some instance
  end.
Proof.
  intros Hi Hloop.
  pose proof (linkExports_step instance inst vm) as Hstep. rewrite Hloop in Hstep.
  destruct Hstep as [Hm1 _].
  unfold link.
  erewrite bind_Normal by (apply derefInstance_run; eassumption).
  erewrite bind_Normal by exact Hloop.
  unfold WebAssemblyFunction_create. unfold_M.
  destruct (isSome (startFunctionIndexSpace (moduleInformation (module inst)))); simpl.
  - destruct (isSome (m_startFunction vm1)); simpl; rewrite Hm1;
      destruct (m_instance vm); simpl; eauto.
  - rewrite Hm1. destruct (m_instance vm); simpl; eauto.
Qed.

(** [link] returns normally only from a store whose [m_instance] is
    empty, and then sets it; otherwise it aborts.  It never throws. *)
Lemma link_outcome instance vm :
  match link put instance vm with
  | (Normal _, vm') => m_instance vm = None /\ m_instance vm' = Some instance
  | (Throw _, _) => False
  | (Crash _, _) => True
  end.
Proof.
  destruct (instances vm !! instance) as [inst|] eqn:Hi.
  - pose proof (linkExports_step instance inst vm) as Hstep.
    destruct (linkExports put instance inst vm) as [[env|e|why] vm1] eqn:Hloop;
      simpl in Hstep; try easy.
    + pose proof (link_after_exports instance vm inst env vm1 Hi Hloop) as Hrest.
      destruct (m_instance vm) as [j|].
      * destruct (link put instance vm) as [r s]. simpl in Hrest. now subst r.
      * destruct Hrest as (vm' & -> & Hset). auto.
    + unfold link. erewrite bind_Normal by (apply derefInstance_run; eassumption).
      erewrite bind_Crash by exact Hloop. exact I.
  - unfold link. unfold mbind at 1. unfold M_bind, bind, derefInstance. now rewrite Hi.
Qed.

(** C6.  Linking is one-shot.  [link] on a record whose [m_instance] is
    already set never returns: it aborts the process, and when its loop
    over the exports goes through, what fails is the release assertion that
    [m_instance] is empty.  Every [link] that returns has set [m_instance],
    so every later [link] on the record aborts. *)
Theorem link_is_one_shot instance vm :
  (isSome (m_instance vm) = true ->
   isCrash (fst (link put instance vm)) = true
   /\ (forall inst,
         instances vm !! instance = Some inst ->
         isNormal (fst (linkExports put instance inst vm)) = true ->
         fst (link put instance vm) = Crash "RELEASE_ASSERT(!m_instance)"))
  /\ (forall vm',
        link put instance vm = (Normal tt, vm') ->
        m_instance vm' = Some instance
        /\ forall other, isCrash (fst (link put other vm')) = true).
Proof.
  assert (Hset : forall i s, isSome (m_instance s) = true ->
                             isCrash (fst (link put i s)) = true).
  { intros i s Hs. pose proof (link_outcome i s) as Hout.
    destruct (link put i s) as [[[]|e|why] s']; simpl in *; try easy.
    destruct Hout as [Hnone _]. rewrite Hnone in Hs. discriminate. }
  split.
  - intros Hs. split; [now apply Hset |].
    intros inst Hi Hloop.
    destruct (linkExports put instance inst vm) as [[env|e|why] vm1] eqn:Hrun;
      simpl in Hloop; try discriminate.
    pose proof (link_after_exports instance vm inst env vm1 Hi Hrun) as Hrest.
    destruct (m_instance vm); [exact Hrest | discriminate].
  - intros vm' Hlink. pose proof (link_outcome instance vm) as Hout. rewrite Hlink in Hout.
    destruct Hout as [_ Hsome]. split; [exact Hsome |].
    intros other. apply Hset. now rewrite Hsome.
Qed.

End Linking.

(** ** The module record: evaluation *)

Section Evaluation.

Import Wasm WebAssemblyModuleRecord.

Variable call : nat -> M VM unit.
Variable put : list string -> gmap string JSValue -> string -> JSValue -> gmap string JSValue * bool.

Lemma evaluate_Throw_in_elements vm instance inst pre element post vm1 e vm2 :
  m_instance vm = Some instance ->
  instances vm !! instance = Some inst ->
  elements (moduleInformation (module inst)) = pre ++ element :: post ->
  forEach pre (evaluateElement instance (module inst)) vm = (Normal tt, vm1) ->
  evaluateElement instance (module inst) element vm1 = (Throw e, vm2) ->
  evaluate call vm = (Throw e, vm2).
Proof.
  intros Hm Hi Hel Hpre Hthrow. unfold evaluate.
  rewrite bind_get, Hm.
  apply bind_Throw. unfold evaluateElements.
  erewrite bind_Normal by (apply derefInstance_run; eassumption).
  rewrite Hel. rewrite (forEach_app _ pre (element :: post) vm vm1 Hpre).
  now apply forEach_cons_Throw.
Qed.

Lemma evaluate_Throw_in_data vm instance vm1 inst jsMemory contents pre segment post vm2 e vm3 :
  m_instance vm = Some instance ->
  evaluateElements instance vm = (Normal tt, vm1) ->
  instances vm1 !! instance = Some inst ->
  instance_memory inst = Some jsMemory ->
  memory jsMemory = Some contents ->
  data (moduleInformation (module inst)) = pre ++ segment :: post ->
  forEach pre (evaluateSegment instance (WasmMemory_size jsMemory)) vm1 = (Normal tt, vm2) ->
  evaluateSegment instance (WasmMemory_size jsMemory) segment vm2 = (Throw e, vm3) ->
  evaluate call vm = (Throw e, vm3).
Proof.
  intros Hm Hel Hi Hmem Hc Hd Hpre Hthrow. unfold evaluate.
  rewrite bind_get, Hm.
  erewrite bind_Normal by exact Hel.
  apply bind_Throw. unfold evaluateData.
  erewrite bind_Normal by (apply derefInstance_run; eassumption).
  rewrite Hd.
  destruct (pre ++ segment :: post) as [|s0 l0] eqn:Hl; [now destruct pre |].
  rewrite Hmem, Hc. rewrite <- Hl.
  rewrite (forEach_app _ pre (segment :: post) vm1 vm2 Hpre).
  now apply forEach_cons_Throw.
Qed.

Lemma forEach_evaluateSegment_keeps_tables instance memorySize segments :
  forall vm,
    let vm' := snd (forEach segments (evaluateSegment instance memorySize) vm) in
    functions vm' = functions vm
    /\ table <$> instances vm' = table <$> instances vm
    /\ m_startFunction vm' = m_startFunction vm.
Proof.
  induction segments as [|segment rest IH]; intros vm; simpl; [auto |].
  pose proof (evaluateSegment_keeps_tables instance memorySize segment vm) as Hstep.
  unfold mbind, M_bind, bind.
  destruct (evaluateSegment instance memorySize segment vm) as [[[]|e|why] vm1];
    simpl in *; try exact Hstep.
  specialize (IH vm1). simpl in IH.
  destruct Hstep as (H1 & H2 & H3), IH as (I1 & I2 & I3). repeat split; congruence.
Qed.

(** C10.  [evaluate] is not atomic.  When the check of a data segment
    fails, [evaluate] throws that RangeError from the store reached so far:
    the one left by phase 1 and by the copies of the earlier data segments.
    The table slots and the function cells are those phase 1 left, and the
    memory is the one the earlier segments wrote; nothing is rolled back. *)
Theorem evaluate_keeps_effects_on_data_error
    vm instance vm1 inst jsMemory contents pre segment post vm2 e :
  m_instance vm = Some instance ->
  evaluateElements instance vm = (Normal tt, vm1) ->
  instances vm1 !! instance = Some inst ->
  instance_memory inst = Some jsMemory ->
  memory jsMemory = Some contents ->
  data (moduleInformation (module inst)) = pre ++ segment :: post ->
  forEach pre (evaluateSegment instance (WasmMemory_size jsMemory)) vm1 = (Normal tt, vm2) ->
  fst (evaluateSegment instance (WasmMemory_size jsMemory) segment vm2) = Throw e ->
  evaluate call vm = (Throw e, vm2)
  /\ functions vm2 = functions vm1
  /\ table <$> instances vm2 = table <$> instances vm1.
Proof.
  intros Hm Hel Hi Hmem Hc Hd Hpre Hthrow.
  pose proof (evaluateSegment_Throw_keeps_store _ _ _ _ _ Hthrow) as Hkeep.
  split.
  - apply evaluate_Throw_in_data with instance vm1 inst jsMemory contents pre segment post vm2;
      try assumption.
    destruct (evaluateSegment instance (WasmMemory_size jsMemory) segment vm2) as [r s].
    simpl in *. congruence.
  - pose proof (forEach_evaluateSegment_keeps_tables instance (WasmMemory_size jsMemory) pre vm1) as Hk.
    rewrite Hpre in Hk. simpl in Hk. tauto.
Qed.

(** C5 (as amended).  An element segment that is within the table and
    names a function index of the import range makes [evaluate] throw a
    RangeError, which its caller can catch.  A function export whose index
    is in the import range makes [link] abort the process at
    [RELEASE_ASSERT_NOT_REACHED()]; [link] throws nothing. *)
Theorem import_in_table_throws_reexport_aborts
    vm instance inst pre element post vm1 inst1 slots exp :
  instances vm !! instance = Some inst ->
  (m_instance vm = Some instance ->
   elements (moduleInformation (module inst)) = pre ++ element :: post ->
   forEach pre (evaluateElement instance (module inst)) vm = (Normal tt, vm1) ->
   instances vm1 !! instance = Some inst1 ->
   table inst1 = Some slots ->
   Z.of_nat (length slots) < 2 ^ 32 ->
   uint32_t (offset element) ->
   0 < Z.of_nat (length (functionIndices element)) < 2 ^ 32 ->
   offset element + Z.of_nat (length (functionIndices element)) - 1 < Z.of_nat (length slots) ->
   noImport (module inst) (functionIndices element) = false ->
   fst (evaluate call vm) = Throw (RangeError tableValueWithImport))
  /\ (exp ∈ exports (moduleInformation (module inst)) ->
      kind exp = Function ->
      kindIndex exp < importCount (module inst) ->
      isCrash (fst (link put instance vm)) = true
      /\ isThrow (fst (link put instance vm)) = false
      /\ (forall rest, exports (moduleInformation (module inst)) = exp :: rest ->
          fst (link put instance vm) = Crash "RELEASE_ASSERT_NOT_REACHED()")).
Proof.
  intros Hi. split.
  - intros Hm Hel Hpre Hi1 Ht Hsize Ho Hc Hin Himp.
    pose proof (evaluateElement_in_bounds instance (module inst) element vm1 inst1 slots
                  Hi1 Ht Hsize Ho Hc Hin) as Hrun.
    rewrite Himp in Hrun.
    destruct (evaluateElement instance (module inst) element vm1) as [r vm2] eqn:Hstep.
    simpl in Hrun. subst r.
    now rewrite (evaluate_Throw_in_elements vm instance inst pre element post vm1
                   (RangeError tableValueWithImport) vm2).
  - intros Hexp Hk Hlt.
    assert (Hcrash : isCrash (fst (link put instance vm)) = true).
    { unfold link. erewrite bind_Normal by (apply derefInstance_run; eassumption).
      pose proof (foldM_linkExport_reexported_import put instance inst
                    (isSome (startFunctionIndexSpace (moduleInformation (module inst))))
                    (default 0 (startFunctionIndexSpace (moduleInformation (module inst))))
                    _ exp Hexp Hk Hlt ∅ vm) as Hloop.
      fold (linkExports put instance inst) in Hloop.
      unfold mbind at 1. unfold M_bind, bind.
      destruct (linkExports put instance inst vm) as [[?|?|?] ?]; simpl in *; congruence. }
    split; [exact Hcrash | split].
    + destruct (fst (link put instance vm)); simpl in *; congruence.
    + intros rest Hfirst. unfold link.
      erewrite bind_Normal by (apply derefInstance_run; eassumption).
      unfold linkExports. rewrite Hfirst. simpl.
      erewrite bind_Crash; [reflexivity |].
      apply bind_Crash. now apply linkExport_reexported_import.
Qed.

End Evaluation.

(** ** Runs on the sample inputs *)

Section ModuleRecordRuns.

Import Wasm WebAssemblyModuleRecord ModuleRecordExamples.

Lemma evaluateElement_bounds_witness :
  fst (evaluateElement 0 tableOnly threeAtFive (unlinked (sampleInstance tableOnly 7 12)))
  = Throw (RangeError outOfBoundsTableIndex)
  /\ fst (evaluateElement 0 tableOnly threeAtFive (unlinked (sampleInstance tableOnly 8 12)))
     = Normal tt
  /\ lastWrittenIndex twoAtMax = 2 ^ 32
  /\ fst (evaluateElement 0 tableOnly twoAtMax (unlinked (sampleInstance tableOnly 8 12)))
     = Throw (RangeError outOfBoundsTableIndex)
  /\ fst (evaluate idle (linked (sampleInstance tableOnly 7 12)))
     = Throw (RangeError outOfBoundsTableIndex)
  /\ fst (evaluate idle (linked (sampleInstance tableOnly 8 12))) = Normal jsUndefined.
Proof.
  split; [| split; [| split; [| split]]].
  - apply (evaluateElement_bounds_check 0%nat tableOnly threeAtFive
             (unlinked (sampleInstance tableOnly 7 12)) (sampleInstance tableOnly 7 12)
             (replicate 7 None));
      try reflexivity; vm_compute; try split; congruence.
  - apply (evaluateElement_bounds_check 0%nat tableOnly threeAtFive
             (unlinked (sampleInstance tableOnly 8 12)) (sampleInstance tableOnly 8 12)
             (replicate 8 None));
      try reflexivity; vm_compute; try split; congruence.
  - apply (evaluateElement_bounds_check 0%nat tableOnly twoAtMax
             (unlinked (sampleInstance tableOnly 8 12)) (sampleInstance tableOnly 8 12)
             (replicate 8 None));
      try reflexivity; vm_compute; try split; congruence.
  - apply (evaluateElement_bounds_check 0%nat tableOnly twoAtMax
             (unlinked (sampleInstance tableOnly 8 12)) (sampleInstance tableOnly 8 12)
             (replicate 8 None));
      try reflexivity; vm_compute; try split; congruence.
  - vm_compute. split; reflexivity.
Defined.

(** C1 (the code at the failing input).  The module exports function 0
    under the names "a" and "b" and stores it into slot 0 of the table.
    After [link] and [evaluate] the two exports and the table slot hold
    three different [WebAssemblyFunction] cells, all made for instance 0
    from the entry points of function 0. *)
Theorem link_and_evaluate_create_a_wrapper_per_reference :
  let vm := linked (sampleInstance twice 8 12) in
  let vm' := snd (evaluate idle vm) in
  fst (link slotPut 0%nat (unlinked (sampleInstance twice 8 12))) = Normal tt
  /\ fst (evaluate idle vm) = Normal jsUndefined
  /\ exportedValue vm' "a" = Some (JSFunctionObject 0)
  /\ exportedValue vm' "b" = Some (JSFunctionObject 1)
  /\ tableOf vm' 0 = Some (Some 2%nat :: replicate 7 None)
  /\ map (fun cell => (function_instance cell, jsEntrypoint cell, wasmEntrypoint cell))
         (functions vm')
     = [(0%nat, 0, 0); (0%nat, 0, 0); (0%nat, 0, 0)].
Proof. vm_compute. repeat split; reflexivity. Qed.

Lemma link_is_one_shot_witness :
  m_instance (linked (sampleInstance twice 8 12)) = Some 0%nat
  /\ isCrash (fst (link slotPut 0%nat (linked (sampleInstance twice 8 12)))) = true
  /\ fst (link slotPut 0%nat (linked (sampleInstance twice 8 12)))
     = Crash "RELEASE_ASSERT(!m_instance)".
Proof.
  split; [| split].
  - apply (proj2 (link_is_one_shot slotPut 0%nat (unlinked (sampleInstance twice 8 12)))
             (linked (sampleInstance twice 8 12))).
    vm_compute. reflexivity.
  - apply (proj1 (link_is_one_shot slotPut 0%nat (linked (sampleInstance twice 8 12)))).
    vm_compute. reflexivity.
  - apply (proj1 (link_is_one_shot slotPut 0%nat (linked (sampleInstance twice 8 12))))
      with (inst := sampleInstance twice 8 12); vm_compute; reflexivity.
Defined.

(** [link] on a module that exports its import 0 aborts the process; it
    does not throw. *)
Lemma link_reexported_import_aborts :
  kindIndex (functionExport "f" 0) < importCount reexport
  /\ fst (link slotPut 0%nat (unlinked (sampleInstance reexport 8 12)))
     = Crash "RELEASE_ASSERT_NOT_REACHED()"
  /\ isThrow (fst (link slotPut 0%nat (unlinked (sampleInstance reexport 8 12)))) = false.
Proof. vm_compute. repeat split; reflexivity. Qed.

Lemma import_in_table_witness :
  fst (evaluate idle (linked (sampleInstance importInTable 8 12)))
  = Throw (RangeError tableValueWithImport)
  /\ fst (link slotPut 0%nat (unlinked (sampleInstance reexport 8 12)))
     = Crash "RELEASE_ASSERT_NOT_REACHED()".
Proof.
  split.
  - apply (import_in_table_throws_reexport_aborts idle slotPut
             (linked (sampleInstance importInTable 8 12)) 0%nat
             (sampleInstance importInTable 8 12)
             [] {| offset := 0; functionIndices := [1; 0] |} []
             (linked (sampleInstance importInTable 8 12))
             (sampleInstance importInTable 8 12) (replicate 8 None)
             (functionExport "f" 0));
      try reflexivity; vm_compute; try split; congruence.
  - apply (import_in_table_throws_reexport_aborts idle slotPut
             (unlinked (sampleInstance reexport 8 12)) 0%nat
             (sampleInstance reexport 8 12)
             [] {| offset := 0; functionIndices := [] |} []
             (unlinked (sampleInstance reexport 8 12))
             (sampleInstance reexport 8 12) (replicate 8 None)
             (functionExport "f" 0) eq_refl) with (rest := []);
      try reflexivity.
    apply list_elem_of_here.
Defined.

Lemma evaluate_keeps_effects_witness :
  let vm := linked (sampleInstance partial 8 12) in
  fst (evaluate idle vm)
  = Throw (RangeError (dataSegmentMessage 12 10 5 segmentWritesOutsideOfMemory))
  /\ tableOf (snd (evaluate idle vm)) 0
     = Some [None; Some 0%nat; None; None; None; None; None; None]
  /\ memoryOf (snd (evaluate idle vm)) 0 = Some ([Byte.x01; Byte.x02] ++ replicate 10 Byte.x00)
  /\ tableOf vm 0 = Some (replicate 8 None)
  /\ memoryOf vm 0 = Some (replicate 12 Byte.x00).
Proof.
  intros vm.
  destruct (evaluate_keeps_effects_on_data_error idle vm 0%nat
              (snd (evaluateElements 0 vm))
              (setTable [None; Some 0%nat; None; None; None; None; None; None]
                 (sampleInstance partial 8 12))
              {| memory := Some (replicate 12 Byte.x00) |} (replicate 12 Byte.x00)
              [{| segment_offset := 0; sizeInBytes := 2; bytes := [Byte.x01; Byte.x02] |}]
              tenAtFive []
              (snd (forEach [{| segment_offset := 0; sizeInBytes := 2;
                                bytes := [Byte.x01; Byte.x02] |}]
                      (evaluateSegment 0 12) (snd (evaluateElements 0 vm))))
              (RangeError (dataSegmentMessage 12 10 5 segmentWritesOutsideOfMemory)))
    as (Hrun & _ & _); try (vm_compute; reflexivity).
  rewrite Hrun. vm_compute. repeat split; reflexivity.
Defined.

End ModuleRecordRuns.

(** ** The executable allocator: growth, registry and pressure *)

Section AllocatorCoverage.

Import ExecutableAllocator.

Variable config : Config.
Variable OSAllocator_reserve : list Z -> Z -> option Z.

Lemma newNumPages_closed_form numPages k :
  0 < pageSize config ->
  0 < k ->
  JIT_ALLOCATOR_LARGE_ALLOC_SIZE config = k * pageSize config ->
  0 <= numPages ->
  numPages * pageSize config + JIT_ALLOCATOR_LARGE_ALLOC_SIZE config <= 2 ^ 64 ->
  newNumPages config numPages
  = (numPages * pageSize config + JIT_ALLOCATOR_LARGE_ALLOC_SIZE config - 1)
    / JIT_ALLOCATOR_LARGE_ALLOC_SIZE config * k.
Proof.
  intros Hps Hk Hlarge Hn Hfit. unfold newNumPages. cbv zeta.
  set (ps := pageSize config) in *. set (L := JIT_ALLOCATOR_LARGE_ALLOC_SIZE config) in *.
  assert (HL : 0 < L) by nia.
  rewrite (size_t_small (numPages * ps + L - 1)) by nia.
  set (q := (numPages * ps + L - 1) / L).
  assert (Hq : 0 <= q) by (apply Z.div_pos; nia).
  assert (HqL : q * L <= numPages * ps + L - 1).
  { unfold q. rewrite Z.mul_comm. apply Z.mul_div_le. lia. }
  rewrite (size_t_small (q * L)) by nia.
  assert (Hmult : q * L + ps - 1 = ps - 1 + (q * k) * ps) by (rewrite Hlarge; ring).
  assert (Hle : q * k * ps <= numPages * ps + k * ps - ps).
  { assert (q * k * ps < numPages * ps + k * ps) by (rewrite Hlarge in HqL; nia).
    assert (q * k < numPages + k) by nia. nia. }
  rewrite size_t_small by (rewrite Hmult, Hlarge in *; nia).
  rewrite Hmult, Z.div_add by lia.
  rewrite Z.div_small by lia. lia.
Qed.

(** X1.  The page count that [allocateNewSpace] leaves in [numPages]:
    when the page size divides the large-allocation size and the request
    does not overflow [size_t], the new count is at least the requested
    one (the [ASSERT] of the function), it covers a whole number of large
    chunks, and it exceeds the request by less than one chunk. *)
Theorem newNumPages_rounds_up_to_large_chunks numPages k :
  0 < pageSize config ->
  0 < k ->
  JIT_ALLOCATOR_LARGE_ALLOC_SIZE config = k * pageSize config ->
  0 <= numPages ->
  numPages * pageSize config + JIT_ALLOCATOR_LARGE_ALLOC_SIZE config <= 2 ^ 64 ->
  numPages <= newNumPages config numPages
  /\ (newNumPages config numPages * pageSize config) mod JIT_ALLOCATOR_LARGE_ALLOC_SIZE config = 0
  /\ newNumPages config numPages * pageSize config
     < numPages * pageSize config + JIT_ALLOCATOR_LARGE_ALLOC_SIZE config.
Proof.
  intros Hps Hk Hlarge Hn Hfit.
  rewrite (newNumPages_closed_form numPages k) by assumption.
  set (ps := pageSize config) in *. set (L := JIT_ALLOCATOR_LARGE_ALLOC_SIZE config) in *.
  assert (HL : 0 < L) by nia.
  set (q := (numPages * ps + L - 1) / L).
  assert (HqL : q * L <= numPages * ps + L - 1).
  { unfold q. rewrite Z.mul_comm. apply Z.mul_div_le. lia. }
  assert (HqU : numPages * ps + L - 1 < (q + 1) * L).
  { unfold q. pose proof (Z.mul_succ_div_gt (numPages * ps + L - 1) L HL). lia. }
  assert (Hqk : q * k * ps = q * L) by (rewrite Hlarge; ring).
  split; [| split].
  - nia.
  - rewrite Hqk. apply Z.mod_mul. lia.
  - rewrite Hqk. lia.
Qed.

Lemma aggregate_insert (count : DemandExecutableAllocator -> Z)
    (m : gmap nat DemandExecutableAllocator) i a :
  m !! i = None ->
  map_fold (fun _ allocator total => size_t (total + count allocator)) 0 (<[i := a]> m)
  = size_t (map_fold (fun _ allocator total => size_t (total + count allocator)) 0 m + count a).
Proof.
  intros Hi.
  apply (map_fold_insert_L (fun _ allocator total => size_t (total + count allocator))); [| exact Hi].
  intros j1 j2 z1 z2 y _ _ _. unfold size_t, wrap.
  rewrite !Zplus_mod_idemp_l. f_equal. lia.
Qed.

Lemma aggregate_replace (count : DemandExecutableAllocator -> Z)
    (m : gmap nat DemandExecutableAllocator) i a a' :
  m !! i = Some a ->
  count a' = count a ->
  map_fold (fun _ allocator total => size_t (total + count allocator)) 0 (<[i := a']> m)
  = map_fold (fun _ allocator total => size_t (total + count allocator)) 0 m.
Proof.
  intros Hi Hc.
  rewrite <- (insert_delete_id m i a Hi) at 2.
  rewrite <- (insert_delete_eq m i a').
  rewrite !aggregate_insert by apply lookup_delete_eq.
  now rewrite Hc.
Qed.

Lemma allocateNewSpace_run this numPages w a :
  allocators w !! this = Some a ->
  underLimit config w ->
  let bytes := size_t (newNumPages config numPages * pageSize config) in
  allocateNewSpace config OSAllocator_reserve this numPages w
  = match OSAllocator_reserve (reserveRequests w) bytes with
    | Some p =>
        (Normal (newNumPages config numPages, Some p),
         setAllocators <[this := appendReservation {| base := p; size := bytes |} a]>
           (logReserve bytes w))
    | None => (Crash "RELEASE_ASSERT(reservation)", logReserve bytes w)
    end.
Proof.
  intros Ha Hunder bytes. unfold allocateNewSpace. unfold_M.
  assert (Hcheck : match EXECUTABLE_MEMORY_LIMIT config with
                   | Some limit => size_t limit <=? bytesAllocatedByAllAllocators w
                   | None => false
                   end = false).
  { unfold underLimit in Hunder. destruct (EXECUTABLE_MEMORY_LIMIT config); [| reflexivity].
    apply Z.leb_gt. exact Hunder. }
  rewrite Hcheck. unfold PageReservation_reserve. fold bytes.
  destruct (OSAllocator_reserve (reserveRequests w) bytes) as [p|]; simpl; [| reflexivity].
  unfold derefAllocator. simpl. rewrite Ha. reflexivity.
Qed.

(** X2.  A growth that goes through.  When the limit check passes and the
    operating system grants the reservation, [allocateNewSpace] returns
    its base, appends the reservation (that base, the rounded size) to the
    [reservations] of the allocator and changes nothing else: the other
    allocators, [gAllocator] and both aggregate counters are as before. *)
Theorem allocateNewSpace_appends_reservation this numPages w a p :
  allocators w !! this = Some a ->
  underLimit config w ->
  OSAllocator_reserve (reserveRequests w)
    (size_t (newNumPages config numPages * pageSize config)) = Some p ->
  let bytes := size_t (newNumPages config numPages * pageSize config) in
  let w' := snd (allocateNewSpace config OSAllocator_reserve this numPages w) in
  fst (allocateNewSpace config OSAllocator_reserve this numPages w)
  = Normal (newNumPages config numPages, Some p)
  /\ allocators w' !! this = Some (appendReservation {| base := p; size := bytes |} a)
  /\ reservations (appendReservation {| base := p; size := bytes |} a)
     = reservations a ++ [{| base := p; size := bytes |}]
  /\ (forall other, other <> this -> allocators w' !! other = allocators w !! other)
  /\ gAllocator w' = gAllocator w
  /\ bytesAllocatedByAllAllocators w' = bytesAllocatedByAllAllocators w
  /\ bytesCommittedByAllocactors w' = bytesCommittedByAllocactors w.
Proof.
  intros Ha Hunder Hos bytes w'. unfold w'.
  rewrite (allocateNewSpace_run this numPages w a Ha Hunder). cbv zeta. rewrite Hos.
  subst bytes. simpl. repeat split.
  - apply lookup_insert_eq.
  - intros other Hne. now apply lookup_insert_ne.
  - unfold bytesAllocatedByAllAllocators. simpl.
    now apply (aggregate_replace m_bytesAllocated) with a.
  - unfold bytesCommittedByAllocactors. simpl.
    now apply (aggregate_replace m_bytesCommitted) with a.
Qed.

(** X3.  Without [EXECUTABLE_MEMORY_LIMIT] (the build the file ships),
    [allocateNewSpace] never returns null: it returns the base of a new
    reservation, or the release assertion aborts the process, which
    happens exactly when the operating system refuses the reservation. *)
Theorem allocateNewSpace_never_null_without_limit this numPages w a :
  EXECUTABLE_MEMORY_LIMIT config = None ->
  allocators w !! this = Some a ->
  (forall n, fst (allocateNewSpace config OSAllocator_reserve this numPages w) <> Normal (n, None))
  /\ (fst (allocateNewSpace config OSAllocator_reserve this numPages w)
      = Crash "RELEASE_ASSERT(reservation)"
      <-> OSAllocator_reserve (reserveRequests w)
            (size_t (newNumPages config numPages * pageSize config)) = None)
  /\ (forall p,
        OSAllocator_reserve (reserveRequests w)
          (size_t (newNumPages config numPages * pageSize config)) = Some p ->
        fst (allocateNewSpace config OSAllocator_reserve this numPages w)
        = Normal (newNumPages config numPages, Some p)).
Proof.
  intros Hl Ha.
  assert (Hunder : underLimit config w) by (unfold underLimit; now rewrite Hl).
  rewrite (allocateNewSpace_run this numPages w a Ha Hunder). cbv zeta.
  destruct (OSAllocator_reserve (reserveRequests w)
              (size_t (newNumPages config numPages * pageSize config))) as [p|]; simpl.
  - split; [intros n; discriminate | split; [split; discriminate |]].
    intros p' H. now inversion H.
  - split; [intros n; discriminate | split; [tauto |]].
    intros p' H. discriminate.
Qed.

(** X4.  [initializeAllocator] places the new allocator at an address no
    registered allocator has, points [gAllocator] at it and registers it
    with no reservation; the registered allocators are otherwise as
    before, and each aggregate counter grows by the count of the new
    object (modulo 2^64). *)
Theorem initializeAllocator_registers_a_new_allocator metaAllocator w :
  let w' := initializeAllocator metaAllocator w in
  exists this,
    gAllocator w' = Some this
    /\ allocators w !! this = None
    /\ (exists a, allocators w' !! this = Some a
                  /\ reservations a = []
                  /\ m_bytesAllocated a = m_bytesAllocated metaAllocator
                  /\ m_bytesCommitted a = m_bytesCommitted metaAllocator)
    /\ (forall other, other <> this -> allocators w' !! other = allocators w !! other)
    /\ bytesAllocatedByAllAllocators w'
       = size_t (bytesAllocatedByAllAllocators w + m_bytesAllocated metaAllocator)
    /\ committedByteCount w' = size_t (committedByteCount w + m_bytesCommitted metaAllocator)
    /\ reserveRequests w' = reserveRequests w.
Proof.
  intros w'. exists (fresh (dom (allocators w))).
  assert (Hfresh : allocators w !! fresh (dom (allocators w)) = None).
  { apply not_elem_of_dom. apply is_fresh. }
  unfold w', initializeAllocator, construct. simpl.
  split; [reflexivity | split; [exact Hfresh | split; [| split; [| split; [| split]]]]].
  - eexists. split; [apply lookup_insert_eq |]. simpl. auto.
  - intros other Hne. now apply lookup_insert_ne.
  - unfold bytesAllocatedByAllAllocators. simpl.
    now rewrite (aggregate_insert m_bytesAllocated).
  - unfold committedByteCount, bytesCommittedByAllocactors. simpl.
    now rewrite (aggregate_insert m_bytesCommitted).
  - reflexivity.
Qed.

(** X5.  The destructor of a registered allocator removes it from the
    set and hands every one of its reservations to [deallocate]; the bytes
    it had allocated and committed leave the aggregates, and the other
    allocators stay registered as they were. *)
Theorem destroy_unregisters_and_releases this w a :
  allocators w !! this = Some a ->
  let w' := snd (destroy this w) in
  fst (destroy this w) = Normal (reservations a)
  /\ allocators w' !! this = None
  /\ (forall other, other <> this -> allocators w' !! other = allocators w !! other)
  /\ bytesAllocatedByAllAllocators w
     = size_t (bytesAllocatedByAllAllocators w' + m_bytesAllocated a)
  /\ bytesCommittedByAllocactors w
     = size_t (bytesCommittedByAllocactors w' + m_bytesCommitted a).
Proof.
  intros Ha w'. unfold w', destroy.
  erewrite bind_Normal by (unfold derefAllocator; now rewrite Ha).
  simpl. split; [reflexivity | split; [apply lookup_delete_eq | split; [| split]]].
  - intros other Hne. now apply lookup_delete_ne.
  - unfold bytesAllocatedByAllAllocators. simpl.
    rewrite <- (aggregate_insert m_bytesAllocated _ this a) by apply lookup_delete_eq.
    now rewrite insert_delete_id.
  - unfold bytesCommittedByAllocactors. simpl.
    rewrite <- (aggregate_insert m_bytesCommitted _ this a) by apply lookup_delete_eq.
    now rewrite insert_delete_id.
Qed.

(** X6.  [underMemoryPressure] and [memoryPressureMultiplier] agree.
    Without a limit there is never pressure.  With a limit, under pressure
    the multiplier of no added bytes is at least 2, and without pressure it
    is at most 2. *)
Theorem underMemoryPressure_agrees_with_multiplier w :
  (EXECUTABLE_MEMORY_LIMIT config = None -> underMemoryPressure config w = false)
  /\ (forall limit,
        EXECUTABLE_MEMORY_LIMIT config = Some limit -> 0 < limit < 2 ^ 64 ->
        (underMemoryPressure config w = true ->
         double_le (Finite 2) (memoryPressureMultiplier config w 0) = true)
        /\ (underMemoryPressure config w = false ->
            double_le (memoryPressureMultiplier config w 0) (Finite 2) = true)).
Proof.
  split.
  - intros Hl. unfold underMemoryPressure. now rewrite Hl.
  - intros limit Hl Hr.
    rewrite (memoryPressureMultiplier_limited config limit w 0 Hl Hr).
    unfold underMemoryPressure. rewrite Hl. rewrite (size_t_small limit) by lia.
    pose proof (bytesAllocatedByAllAllocators_range w) as Ht.
    assert (Hb : clampedBytesAllocated limit w 0
                 = Z.min limit (bytesAllocatedByAllAllocators w)).
    { unfold clampedBytesAllocated. rewrite Z.add_0_r, (size_t_small limit) by lia.
      rewrite (size_t_small (bytesAllocatedByAllAllocators w)) by lia.
      destruct (Z.leb_spec limit (bytesAllocatedByAllAllocators w)); lia. }
    cbv zeta. rewrite Hb.
    pose proof (Z.div_mod limit 2 ltac:(lia)) as Hdiv.
    pose proof (Z.mod_pos_bound limit 2 ltac:(lia)) as Hmod.
    split; intros Hp.
    + apply Z.ltb_lt in Hp.
      destruct (Z.eqb_spec (limit - Z.min limit (bytesAllocatedByAllAllocators w)) 0);
        [reflexivity |].
      simpl. apply Qle_bool_iff. unfold Qle. simpl. rewrite Z2Pos.id by lia. lia.
    + apply Z.ltb_ge in Hp.
      destruct (Z.eqb_spec (limit - Z.min limit (bytesAllocatedByAllAllocators w)) 0); [lia |].
      simpl. apply Qle_bool_iff. unfold Qle. simpl. rewrite Z2Pos.id by lia. lia.
Qed.

(** X7.  The multiplier in closed form.  With a limit configured and a sum
    of allocated and added bytes that fits [size_t]: at or beyond the limit
    the division is by zero and the result is [+infinity]; below the limit
    the result is [limit / (limit - (allocated + added))], and the final
    clamp to [1.0] never applies. *)
Theorem memoryPressureMultiplier_closed_form w limit added :
  EXECUTABLE_MEMORY_LIMIT config = Some limit ->
  0 < limit < 2 ^ 64 ->
  0 <= added ->
  bytesAllocatedByAllAllocators w + added < 2 ^ 64 ->
  (limit <= bytesAllocatedByAllAllocators w + added ->
   memoryPressureMultiplier config w added = Infinity)
  /\ (bytesAllocatedByAllAllocators w + added < limit ->
      memoryPressureMultiplier config w added
      = Finite (Qmake limit (Z.to_pos (limit - (bytesAllocatedByAllAllocators w + added))))).
Proof.
  intros Hl Hr Ha Hfit.
  rewrite (memoryPressureMultiplier_limited config limit w added Hl Hr).
  pose proof (bytesAllocatedByAllAllocators_range w) as Ht.
  unfold clampedBytesAllocated. rewrite (size_t_small limit) by lia.
  rewrite (size_t_small (bytesAllocatedByAllAllocators w + added)) by lia.
  cbv zeta. split; intros Hcmp.
  - destruct (Z.leb_spec limit (bytesAllocatedByAllAllocators w + added)); [| lia].
    now rewrite Z.sub_diag.
  - destruct (Z.leb_spec limit (bytesAllocatedByAllAllocators w + added)); [lia |].
    destruct (Z.eqb_spec (limit - (bytesAllocatedByAllAllocators w + added)) 0); [lia |].
    reflexivity.
Qed.

End AllocatorCoverage.

(** ** The module record: what the phases of [evaluate] write *)

Section Population.

Import Wasm WebAssemblyModuleRecord.

Lemma VM_eta vm :
  vm = {| functions := functions vm;
          instances := instances vm;
          m_instance := m_instance vm;
          m_startFunction := m_startFunction vm;
          m_moduleEnvironment := m_moduleEnvironment vm |}.
Proof. now destruct vm. Qed.

Lemma setTable_same inst slots : table inst = Some slots -> setTable slots inst = inst.
Proof. destruct inst. simpl. now intros ->. Qed.

Lemma setElementFunctions_run instance module functionIndices :
  forall tableIndex vm inst slots,
    instances vm !! instance = Some inst ->
    table inst = Some slots ->
    Z.of_nat (length slots) < 2 ^ 32 ->
    0 <= tableIndex ->
    tableIndex + Z.of_nat (length functionIndices) <= Z.of_nat (length slots) ->
    noImport module functionIndices = true ->
    setElementFunctions instance module functionIndices tableIndex vm
    = (Normal tt,
       {| functions := functions vm ++ (tableFunction instance module <$> functionIndices);
          instances :=
            <[instance := setTable
                            (list_inserts (Z.to_nat tableIndex)
                               (Some <$> seq (length (functions vm)) (length functionIndices))
                               slots) inst]> (instances vm);
          m_instance := m_instance vm;
          m_startFunction := m_startFunction vm;
          m_moduleEnvironment := m_moduleEnvironment vm |}).
Proof.
  induction functionIndices as [|functionIndex rest IH];
    intros tableIndex vm inst slots Hi Ht Hsize Hlo Hhi Hno.
  - simpl. unfold mret, M_ret, ret. f_equal.
    rewrite app_nil_r, (setTable_same inst slots Ht), (list_insert_id _ _ _ Hi).
    apply VM_eta.
  - simpl in Hhi, Hno. apply andb_prop in Hno as [Hloc Hno]. apply Z.leb_le in Hloc.
    simpl. destruct (Z.ltb_spec functionIndex (importCount module)); [lia |].
    erewrite bind_Normal by reflexivity.
    erewrite bind_Normal by (eapply Table_setFunction_run; [exact Hi | exact Ht | lia]).
    unfold wrap. rewrite Z.mod_small by lia.
    erewrite (IH (tableIndex + 1) _
                (setTable (<[Z.to_nat tableIndex := Some (length (functions vm))]> slots) inst)
                (<[Z.to_nat tableIndex := Some (length (functions vm))]> slots));
      try (rewrite ?length_insert; lia); try reflexivity; try assumption.
    + simpl. f_equal. f_equal.
      * now rewrite <- app_assoc.
      * rewrite list_insert_insert_eq. f_equal. unfold setTable. simpl. f_equal. f_equal.
        rewrite length_app. simpl.
        replace (Z.to_nat (tableIndex + 1)) with (S (Z.to_nat tableIndex)) by lia.
        replace (length (functions vm) + 1)%nat with (S (length (functions vm))) by lia.
        symmetry. apply list_insert_inserts_lt. lia.
    + simpl. apply list_lookup_insert_eq. now apply lookup_lt_Some with inst.
Qed.

Lemma extends_refl vm : extends vm vm.
Proof. unfold extends. repeat split; reflexivity. Qed.

Lemma extends_trans vm1 vm2 vm3 : extends vm1 vm2 -> extends vm2 vm3 -> extends vm1 vm3.
Proof.
  unfold extends. intros (P1 & S1 & A1 & B1 & C1) (P2 & S2 & A2 & B2 & C2).
  repeat split; try congruence. now transitivity (functions vm2).
Qed.

Lemma bind_keeps (R : VM -> VM -> Prop) {A B} (c : M VM A) (k : A -> M VM B) :
  (forall s1 s2 s3, R s1 s2 -> R s2 s3 -> R s1 s3) ->
  (forall s, R s (snd (c s))) ->
  (forall a s, R s (snd (k a s))) ->
  forall s, R s (snd ((c ≫= k) s)).
Proof.
  intros Htrans Hc Hk s. unfold mbind, M_bind, bind.
  specialize (Hc s). destruct (c s) as [[a|e|why] s1]; simpl in *; try exact Hc.
  apply Htrans with s1; [exact Hc | apply Hk].
Qed.

Lemma forEach_keeps (R : VM -> VM -> Prop) {A} (body : A -> M VM unit) xs :
  (forall s, R s s) ->
  (forall s1 s2 s3, R s1 s2 -> R s2 s3 -> R s1 s3) ->
  (forall x s, R s (snd (body x s))) ->
  forall s, R s (snd (forEach xs body s)).
Proof.
  intros Hrefl Htrans Hbody. induction xs as [|x rest IH]; intros s; simpl.
  - apply Hrefl.
  - apply bind_keeps; [exact Htrans | apply Hbody | intros _; apply IH].
Qed.

Lemma bind_extends {A B} (c : M VM A) (k : A -> M VM B) :
  (forall s, extends s (snd (c s))) ->
  (forall a s, extends s (snd (k a s))) ->
  forall s, extends s (snd ((c ≫= k) s)).
Proof. apply bind_keeps. exact extends_trans. Qed.

Lemma forEach_extends {A} (body : A -> M VM unit) xs :
  (forall x s, extends s (snd (body x s))) ->
  forall s, extends s (snd (forEach xs body s)).
Proof. apply forEach_keeps; [exact extends_refl | exact extends_trans]. Qed.

Lemma derefInstance_extends instance s : extends s (snd (derefInstance instance s)).
Proof. unfold derefInstance. destruct (instances s !! instance); apply extends_refl. Qed.

Lemma create_extends length_ name instance js wasm signature s :
  extends s (snd (WebAssemblyFunction_create length_ name instance js wasm signature s)).
Proof.
  unfold WebAssemblyFunction_create, extends. simpl. repeat split.
  now apply prefix_app_r.
Qed.

Lemma Table_setFunction_extends instance index function s :
  extends s (snd (Table_setFunction instance index function s)).
Proof.
  unfold Table_setFunction. unfold mbind at 1. unfold M_bind, bind, derefInstance.
  destruct (instances s !! instance) as [inst|] eqn:Hi; [| apply extends_refl].
  destruct (table inst) as [slots|] eqn:Ht; [| apply extends_refl].
  unfold RELEASE_ASSERT. unfold_M.
  destruct (index <? Z.of_nat (length slots)); simpl; [| apply extends_refl].
  unfold extends. simpl. repeat split; [reflexivity |].
  rewrite list_fmap_insert.
  apply list_insert_id. rewrite list_lookup_fmap, Hi. simpl. f_equal.
  unfold instanceShape. simpl. rewrite Ht. simpl. now rewrite length_insert.
Qed.

Lemma setElementFunctions_extends instance module functionIndices :
  forall tableIndex s,
    extends s (snd (setElementFunctions instance module functionIndices tableIndex s)).
Proof.
  induction functionIndices as [|functionIndex rest IH]; intros tableIndex s; simpl.
  - apply extends_refl.
  - destruct (functionIndex <? importCount module); [apply extends_refl |].
    apply bind_extends; [intros s0; apply create_extends |].
    intros function s0. apply bind_extends; [apply Table_setFunction_extends |].
    intros _ s1. apply IH.
Qed.

Lemma evaluateElement_extends instance module element s :
  extends s (snd (evaluateElement instance module element s)).
Proof.
  unfold evaluateElement.
  destruct (Z.of_nat (length (functionIndices element)) =? 0); [apply extends_refl |].
  apply bind_extends.
  - intros s0. unfold Table_size. apply bind_extends; [apply derefInstance_extends |].
    intros inst s1. destruct (table inst); apply extends_refl.
  - intros size s0. destruct (size <=? lastWrittenIndex element); [apply extends_refl |].
    apply setElementFunctions_extends.
Qed.

Lemma evaluateSegment_extends instance memorySize segment s :
  extends s (snd (evaluateSegment instance memorySize segment s)).
Proof.
  unfold evaluateSegment.
  destruct (sizeInBytes segment =? 0); [apply extends_refl |].
  destruct (memorySize <? sizeInBytes segment); [apply extends_refl |].
  destruct (wrap 32 (memorySize - sizeInBytes segment) <? segment_offset segment);
    [apply extends_refl |].
  unfold memcpy, modify, extends. simpl. repeat split; [reflexivity |].
  apply list_eq. intros j. rewrite !list_lookup_fmap.
  destruct (decide (instance = j)) as [<-|Hne].
  - rewrite list_lookup_alter_eq. destruct (instances s !! instance) as [inst|]; [| reflexivity].
    simpl. f_equal. unfold writeMemory.
    destruct (instance_memory inst) as [[[contents|]]|] eqn:Hm; try reflexivity.
    unfold instanceShape. simpl. rewrite Hm. simpl. now rewrite length_inserts.
  - now rewrite list_lookup_alter_ne.
Qed.

Lemma evaluateElements_extends instance s : extends s (snd (evaluateElements instance s)).
Proof.
  unfold evaluateElements. apply bind_extends; [apply derefInstance_extends |].
  intros inst s0. apply forEach_extends. intros element st. apply evaluateElement_extends.
Qed.

Lemma evaluateData_extends instance s : extends s (snd (evaluateData instance s)).
Proof.
  unfold evaluateData. apply bind_extends; [apply derefInstance_extends |].
  intros inst s0. destruct (data (moduleInformation (module inst))); [apply extends_refl |].
  destruct (instance_memory inst) as [jsMemory|]; [| apply extends_refl].
  destruct (memory jsMemory); [| apply extends_refl].
  apply forEach_extends. intros segment st. apply evaluateSegment_extends.
Qed.

(** Phase 1 writes no memory. *)
Lemma evaluateElements_keeps_memories instance s :
  instance_memory <$> instances (snd (evaluateElements instance s))
  = instance_memory <$> instances s.
Proof.
  set (R := fun s1 s2 : VM => instance_memory <$> instances s2 = instance_memory <$> instances s1).
  assert (Hrefl : forall s0, R s0 s0) by (intros s0; reflexivity).
  assert (Htrans : forall s1 s2 s3, R s1 s2 -> R s2 s3 -> R s1 s3)
    by (unfold R; intros s1 s2 s3 H1 H2; congruence).
  change (R s (snd (evaluateElements instance s))).
  unfold evaluateElements. apply bind_keeps; [exact Htrans | |].
  { intros s0. unfold derefInstance. destruct (instances s0 !! instance); apply Hrefl. }
  intros inst s0. apply forEach_keeps; [exact Hrefl | exact Htrans |].
  intros element s1. unfold evaluateElement.
  destruct (Z.of_nat (length (functionIndices element)) =? 0); [apply Hrefl |].
  apply bind_keeps; [exact Htrans | |].
  { intros s2. unfold Table_size. apply bind_keeps; [exact Htrans | |].
    - intros s3. unfold derefInstance. destruct (instances s3 !! instance); apply Hrefl.
    - intros inst3 s3. destruct (table inst3); apply Hrefl. }
  intros size s2. destruct (size <=? lastWrittenIndex element); [apply Hrefl |].
  generalize (offset element). generalize s2.
  induction (functionIndices element) as [|functionIndex rest IH]; intros s3 tableIndex; simpl.
  { apply Hrefl. }
  destruct (functionIndex <? importCount (module inst)); [apply Hrefl |].
  apply bind_keeps; [exact Htrans | intros s4; reflexivity |].
  intros function s4. apply bind_keeps; [exact Htrans | | intros _ s5; apply IH].
  intros s5. unfold Table_setFunction. unfold mbind at 1. unfold M_bind, bind, derefInstance.
  destruct (instances s5 !! instance) as [inst5|] eqn:Hi; [| apply Hrefl].
  destruct (table inst5) as [slots|]; [| apply Hrefl].
  unfold RELEASE_ASSERT. unfold_M.
  destruct (tableIndex <? Z.of_nat (length slots)); simpl; [| apply Hrefl].
  unfold R. simpl. rewrite list_fmap_insert. apply list_insert_id.
  now rewrite list_lookup_fmap, Hi.
Qed.

(** X8.  What an element segment writes.  A non-empty segment that is
    within the table and names no import returns normally; it creates one
    function cell per function index, in order, each with the entry
    points and the signature of its index and an empty name; slot
    [offset + i] of the table holds the address of the i-th new cell, and
    the other slots, the size of the table and the memory are as before. *)
Theorem evaluateElement_populates_table instance module element vm inst slots :
  instances vm !! instance = Some inst ->
  table inst = Some slots ->
  Z.of_nat (length slots) < 2 ^ 32 ->
  uint32_t (offset element) ->
  0 < Z.of_nat (length (functionIndices element)) ->
  offset element + Z.of_nat (length (functionIndices element)) <= Z.of_nat (length slots) ->
  noImport module (functionIndices element) = true ->
  let vm' := snd (evaluateElement instance module element vm) in
  fst (evaluateElement instance module element vm) = Normal tt
  /\ functions vm' = functions vm ++ (tableFunction instance module <$> functionIndices element)
  /\ (exists slots',
        tableOf vm' instance = Some slots'
        /\ length slots' = length slots
        /\ (forall i, (i < length (functionIndices element))%nat ->
              slots' !! (Z.to_nat (offset element) + i)%nat
              = Some (Some (length (functions vm) + i)%nat))
        /\ (forall j, (j < Z.to_nat (offset element)
                       \/ Z.to_nat (offset element) + length (functionIndices element) <= j)%nat ->
              slots' !! j = slots !! j))
  /\ memoryOf vm' instance = memoryOf vm instance.
Proof.
  intros Hi Ht Hsize Ho Hc Hin Hno vm'. unfold uint32_t in Ho.
  assert (Hrun : evaluateElement instance module element vm
                 = setElementFunctions instance module (functionIndices element)
                     (offset element) vm).
  { unfold evaluateElement.
    destruct (Z.eqb_spec (Z.of_nat (length (functionIndices element))) 0); [lia |].
    unfold Table_size.
    erewrite bind_Normal by (erewrite bind_Normal by (apply derefInstance_run; eassumption);
                             rewrite Ht; reflexivity).
    rewrite lastWrittenIndex_exact by (unfold uint32_t; lia).
    destruct (Z.leb_spec (Z.of_nat (length slots))
                (offset element + Z.of_nat (length (functionIndices element)) - 1));
      [lia | reflexivity]. }
  unfold vm'. rewrite Hrun.
  rewrite (setElementFunctions_run instance module (functionIndices element)
             (offset element) vm inst slots) by (assumption || lia).
  simpl. split; [reflexivity | split; [reflexivity | split]].
  - eexists. unfold tableOf. simpl.
    rewrite list_lookup_insert_eq by (now apply lookup_lt_Some with inst). simpl.
    split; [reflexivity | split; [apply length_inserts | split]].
    + intros i Hlt.
      rewrite list_lookup_inserts by (rewrite ?length_fmap, ?length_seq; lia).
      rewrite list_lookup_fmap.
      replace (Z.to_nat (offset element) + i - Z.to_nat (offset element))%nat with i by lia.
      now rewrite lookup_seq_lt.
    + intros j [Hj|Hj].
      * now apply list_lookup_inserts_lt.
      * apply list_lookup_inserts_ge. rewrite length_fmap, length_seq. lia.
  - unfold memoryOf. simpl.
    rewrite list_lookup_insert_eq by (now apply lookup_lt_Some with inst).
    rewrite Hi. now destruct inst.
Qed.

End Population.

(** ** The module record: the data phase and the start function *)

Section Phases.

Import Wasm WebAssemblyModuleRecord.

Variable call : nat -> M VM unit.

Lemma memoryOf_lookup vm instance inst :
  instances vm !! instance = Some inst ->
  memoryOf vm instance
  = match instance_memory inst with Some jsMemory => memory jsMemory | None => None end.
Proof. intros Hi. unfold memoryOf. rewrite Hi. now destruct inst. Qed.

Lemma setMemory_same inst jsMemory :
  instance_memory inst = Some jsMemory -> setMemory jsMemory inst = inst.
Proof. destruct inst. simpl. now intros ->. Qed.

Lemma setInstances_id vm inst instance :
  instances vm !! instance = Some inst ->
  setInstances <[instance := inst]> vm = vm.
Proof. intros Hi. destruct vm. unfold setInstances. simpl in *. f_equal. now apply list_insert_id. Qed.

Lemma evaluateSegment_fits instance memorySize segment vm inst contents :
  instances vm !! instance = Some inst ->
  instance_memory inst = Some {| memory := Some contents |} ->
  memorySize = Z.of_nat (length contents) ->
  memorySize < 2 ^ 32 ->
  wellFormedSegment segment ->
  segmentFits memorySize segment = true ->
  evaluateSegment instance memorySize segment vm
  = (Normal tt,
     setInstances
       <[instance := setMemory
                       {| memory := Some (list_inserts (Z.to_nat (segment_offset segment))
                                            (bytes segment) contents) |} inst]> vm).
Proof.
  intros Hi Hm Hsize Hbound (Ho & Hs & Hb) Hfits.
  unfold uint32_t in *. unfold segmentFits in Hfits. unfold evaluateSegment.
  destruct (Z.eqb_spec (sizeInBytes segment) 0) as [Hz|Hnz].
  - assert (Hnil : bytes segment = []) by (apply length_zero_iff_nil; lia).
    rewrite Hnil. simpl. unfold mret, M_ret, ret. f_equal.
    rewrite (setMemory_same inst _ Hm). symmetry. now apply setInstances_id.
  - simpl in Hfits. apply andb_prop in Hfits as [H1 H2].
    apply Z.leb_le in H1. apply Z.leb_le in H2.
    destruct (Z.ltb_spec memorySize (sizeInBytes segment)); [lia |].
    unfold wrap. rewrite Z.mod_small by lia.
    destruct (Z.ltb_spec (memorySize - sizeInBytes segment) (segment_offset segment)); [lia |].
    rewrite take_ge by lia.
    now apply memcpy_run with {| memory := Some contents |}.
Qed.

Lemma evaluateSegment_does_not_fit instance memorySize segment vm :
  memorySize < 2 ^ 32 ->
  wellFormedSegment segment ->
  segmentFits memorySize segment = false ->
  isThrow (fst (evaluateSegment instance memorySize segment vm)) = true.
Proof.
  intros Hbound (Ho & Hs & Hb) Hfits.
  unfold uint32_t in *. unfold segmentFits in Hfits. unfold evaluateSegment.
  apply orb_false_iff in Hfits as [Hnz Hfits]. rewrite Hnz.
  destruct (Z.ltb_spec memorySize (sizeInBytes segment)); [reflexivity |].
  apply andb_false_iff in Hfits as [Hfits|Hfits]; [apply Z.leb_gt in Hfits; lia |].
  apply Z.leb_gt in Hfits.
  unfold wrap. rewrite Z.mod_small by lia.
  destruct (Z.ltb_spec (memorySize - sizeInBytes segment) (segment_offset segment));
    [reflexivity | lia].
Qed.

Lemma forEach_evaluateSegment_fits instance memorySize segments :
  forall vm inst contents,
    instances vm !! instance = Some inst ->
    instance_memory inst = Some {| memory := Some contents |} ->
    memorySize = Z.of_nat (length contents) ->
    memorySize < 2 ^ 32 ->
    Forall wellFormedSegment segments ->
    forallb (segmentFits memorySize) segments = true ->
    forEach segments (evaluateSegment instance memorySize) vm
    = (Normal tt,
       setInstances
         <[instance := setMemory {| memory := Some (writeSegments contents segments) |} inst]> vm).
Proof.
  induction segments as [|segment rest IH]; intros vm inst contents Hi Hm Hsize Hbound Hwf Hfits.
  - simpl. unfold ret. f_equal.
    rewrite (setMemory_same inst _ Hm). symmetry. now apply setInstances_id.
  - pose proof (Forall_inv Hwf) as Hw. pose proof (Forall_inv_tail Hwf) as Hwfs.
    simpl in Hfits. apply andb_prop in Hfits as [Hfit Hfits]. simpl.
    erewrite bind_Normal by (eapply evaluateSegment_fits; (eassumption || reflexivity)).
    erewrite (IH _ (setMemory {| memory := Some (list_inserts (Z.to_nat (segment_offset segment))
                                                    (bytes segment) contents) |} inst)
                (list_inserts (Z.to_nat (segment_offset segment)) (bytes segment) contents));
      try assumption; try reflexivity.
    + f_equal. unfold setInstances. simpl. f_equal. now rewrite list_insert_insert_eq.
    + simpl. apply list_lookup_insert_eq. now apply lookup_lt_Some with inst.
    + now rewrite length_inserts.
Qed.

Lemma forEach_evaluateSegment_does_not_fit instance memorySize segments :
  forall vm inst contents,
    instances vm !! instance = Some inst ->
    instance_memory inst = Some {| memory := Some contents |} ->
    memorySize = Z.of_nat (length contents) ->
    memorySize < 2 ^ 32 ->
    Forall wellFormedSegment segments ->
    forallb (segmentFits memorySize) segments = false ->
    isThrow (fst (forEach segments (evaluateSegment instance memorySize) vm)) = true.
Proof.
  induction segments as [|segment rest IH]; intros vm inst contents Hi Hm Hsize Hbound Hwf Hfits;
    [discriminate |].
  pose proof (Forall_inv Hwf) as Hw. pose proof (Forall_inv_tail Hwf) as Hwfs.
  simpl in Hfits. simpl.
  destruct (segmentFits memorySize segment) eqn:Hfit.
  - erewrite bind_Normal by (eapply evaluateSegment_fits; (eassumption || reflexivity)).
    apply (IH _ (setMemory {| memory := Some (list_inserts (Z.to_nat (segment_offset segment))
                                                (bytes segment) contents) |} inst)
              (list_inserts (Z.to_nat (segment_offset segment)) (bytes segment) contents));
      try assumption; try reflexivity.
    + simpl. apply list_lookup_insert_eq. now apply lookup_lt_Some with inst.
    + now rewrite length_inserts.
  - pose proof (evaluateSegment_does_not_fit instance _ segment vm Hbound Hw Hfit) as Hthrow.
    unfold mbind, M_bind, bind.
    destruct (evaluateSegment instance memorySize segment vm) as [[[]|e|why] s];
      simpl in *; congruence.
Qed.

Lemma evaluateData_keeps_tables instance vm :
  functions (snd (evaluateData instance vm)) = functions vm
  /\ table <$> instances (snd (evaluateData instance vm)) = table <$> instances vm.
Proof.
  unfold evaluateData, mbind, M_bind, bind, derefInstance.
  destruct (instances vm !! instance) as [inst|]; [| now simpl].
  destruct (data (moduleInformation (module inst))) as [|segment rest]; [now simpl |].
  destruct (instance_memory inst) as [jsMemory|]; [| now simpl].
  destruct (memory jsMemory); [| now simpl].
  pose proof (forEach_evaluateSegment_keeps_tables instance (WasmMemory_size jsMemory)
                (segment :: rest) vm) as Hk.
  simpl in Hk. tauto.
Qed.

(** X9.  The store after [evaluate].  Provided the start function extends
    the store, so does [evaluate], whatever its outcome: no function cell
    is removed or changed, every instance keeps its module, its globals,
    its table and memory and their sizes, and the members of the record
    are untouched.  Phase 1 writes no memory; phase 2 writes no table slot
    and creates no function. *)
Theorem evaluate_extends_the_store vm :
  (forall function s, extends s (snd (call function s))) ->
  extends vm (snd (evaluate call vm))
  /\ (forall instance,
        instance_memory <$> instances (snd (evaluateElements instance vm))
        = instance_memory <$> instances vm)
  /\ (forall instance,
        functions (snd (evaluateData instance vm)) = functions vm
        /\ table <$> instances (snd (evaluateData instance vm)) = table <$> instances vm).
Proof.
  intros Hcall. split; [| split].
  - unfold evaluate. apply bind_extends; [intros s; apply extends_refl |].
    intros vm0 s. destruct (m_instance vm0) as [instance|]; [| apply extends_refl].
    apply bind_extends; [intros s0; apply evaluateElements_extends |].
    intros _ s0. apply bind_extends; [intros s1; apply evaluateData_extends |].
    intros _ s1. apply bind_extends; [intros s2; apply extends_refl |].
    intros vm2 s2. apply bind_extends; [| intros _ s3; apply extends_refl].
    intros s3. destruct (m_startFunction vm2); [apply Hcall | apply extends_refl].
  - intros instance. apply evaluateElements_keeps_memories.
  - intros instance. apply evaluateData_keeps_tables.
Qed.

(** X10.  The data phase as a whole, for a realized memory and segments
    as the decoder makes them.  When every segment fits (or is empty) the
    phase returns normally and the memory holds the payloads copied in
    declaration order, a later segment overwriting an earlier one where
    they overlap; no table slot or function cell changes.  When some
    segment does not fit the phase throws. *)
Theorem evaluateData_copies_segments_in_order instance vm inst contents :
  instances vm !! instance = Some inst ->
  instance_memory inst = Some {| memory := Some contents |} ->
  Z.of_nat (length contents) < 2 ^ 32 ->
  Forall wellFormedSegment (data (moduleInformation (module inst))) ->
  let segments := data (moduleInformation (module inst)) in
  let memorySize := Z.of_nat (length contents) in
  (forallb (segmentFits memorySize) segments = true ->
     fst (evaluateData instance vm) = Normal tt
     /\ memoryOf (snd (evaluateData instance vm)) instance = Some (writeSegments contents segments)
     /\ tableOf (snd (evaluateData instance vm)) instance = tableOf vm instance
     /\ functions (snd (evaluateData instance vm)) = functions vm)
  /\ (forallb (segmentFits memorySize) segments = false ->
      isThrow (fst (evaluateData instance vm)) = true).
Proof.
  intros Hi Hm Hbound Hwf segments memorySize.
  assert (Hdata : evaluateData instance vm
                  = match segments with
                    | [] => (Normal tt, vm)
                    | _ :: _ => forEach segments (evaluateSegment instance memorySize) vm
                    end).
  { unfold evaluateData. erewrite bind_Normal by (apply derefInstance_run; eassumption).
    fold segments. destruct segments; [reflexivity |]. now rewrite Hm. }
  assert (Hwf' : Forall wellFormedSegment segments) by exact Hwf.
  clearbody segments. clear Hwf.
  split.
  - intros Hfits. rewrite Hdata.
    destruct segments as [|segment rest] eqn:Hs.
    + simpl. rewrite (memoryOf_lookup vm instance inst Hi), Hm. simpl. auto.
    + rewrite (forEach_evaluateSegment_fits instance memorySize (segment :: rest) vm inst contents)
        by (assumption || reflexivity).
      simpl. split; [reflexivity | split; [| split; [| reflexivity]]].
      * erewrite memoryOf_lookup
          by (simpl; apply list_lookup_insert_eq; now apply lookup_lt_Some with inst).
        reflexivity.
      * unfold tableOf. simpl.
        rewrite list_lookup_insert_eq by (now apply lookup_lt_Some with inst).
        now rewrite Hi.
  - intros Hfits. rewrite Hdata.
    destruct segments as [|segment rest] eqn:Hs; [discriminate |].
    now apply forEach_evaluateSegment_does_not_fit with inst contents.
Qed.

(** X11.  The start function runs last.  When both segment phases return
    normally, [evaluate] calls the function that [link] recorded in
    [m_startFunction], once, on the store the phases left, and the outcome
    of the call is the outcome of [evaluate]: [undefined] when the call
    returns, the exception when it throws.  Without a recorded start
    function nothing is called and [evaluate] returns [undefined]. *)
Theorem evaluate_runs_the_start_function_last vm instance vm1 vm2 :
  m_instance vm = Some instance ->
  evaluateElements instance vm = (Normal tt, vm1) ->
  evaluateData instance vm1 = (Normal tt, vm2) ->
  evaluate call vm
  = match m_startFunction vm with
    | Some startFunction =>
        match call startFunction vm2 with
        | (Normal _, s) => (Normal jsUndefined, s)
        | (Throw e, s) => (Throw e, s)
        | (Crash why, s) => (Crash why, s)
        end
    | None => (Normal jsUndefined, vm2)
    end.
Proof.
  intros Hm H1 H2.
  assert (Hstart : m_startFunction vm2 = m_startFunction vm).
  { pose proof (evaluateElements_extends instance vm) as E1. rewrite H1 in E1.
    pose proof (evaluateData_extends instance vm1) as E2. rewrite H2 in E2.
    unfold extends in *. simpl in *. destruct E1 as (_ & _ & _ & B1 & _).
    destruct E2 as (_ & _ & _ & B2 & _). congruence. }
  unfold evaluate. rewrite bind_get, Hm.
  erewrite bind_Normal by exact H1. erewrite bind_Normal by exact H2.
  rewrite bind_get, Hstart.
  destruct (m_startFunction vm) as [startFunction|]; [| reflexivity].
  unfold mbind, M_bind, bind.
  destruct (call startFunction vm2) as [[[]|e|why] s]; reflexivity.
Qed.

End Phases.

(** ** The module record: what [link] builds *)

Section LinkingCoverage.

Import Wasm WebAssemblyModuleRecord.

Variable put : list string -> gmap string JSValue -> string -> JSValue -> gmap string JSValue * bool.

(** A step of the export loop that returns. *)
Lemma linkExport_Normal instance inst hasStart start env exp vm env' vm' :
  linkExport put instance inst hasStart start env exp vm = (Normal env', vm') ->
  (exists value,
     put (exportSymbolTable (module inst)) env (field exp) value = (env', true)
     /\ exportValue instance inst (functions vm') exp value)
  /\ functions vm'
     = functions vm ++ (if isFunctionExport exp then [exportFunction instance (module inst) exp]
                        else [])
  /\ m_startFunction vm'
     = (if isFunctionExport exp && (hasStart && (start =? kindIndex exp))
        then Some (length (functions vm)) else m_startFunction vm)
  /\ instances vm' = instances vm
  /\ m_instance vm' = m_instance vm
  /\ m_moduleEnvironment vm' = m_moduleEnvironment vm.
Proof.
  unfold linkExport, exportValue, isFunctionExport, loadGlobal, WebAssemblyFunction_create.
  unfold_M.
  destruct (kind exp); simpl.
  - destruct (kindIndex exp <? importCount (module inst)); [discriminate |].
    destruct (hasStart && (start =? kindIndex exp)); simpl;
      (destruct (put _ env (field exp) _) as [env1 []] eqn:Hput; simpl; [| discriminate]);
      intros H; inversion H; subst; simpl;
      (split; [eexists; split; [exact Hput | eexists; split; [reflexivity |]] |]);
      try (rewrite lookup_app_r by lia; now rewrite Nat.sub_diag); auto.
  - destruct (isSome (table inst)) eqn:Ht; simpl; [| discriminate].
    destruct (put _ env (field exp) _) as [env1 []] eqn:Hput; simpl; [| discriminate].
    intros H; inversion H; subst. rewrite app_nil_r.
    split; [eexists; split; [exact Hput | auto] | auto].
  - destruct (isSome (instance_memory inst)) eqn:Ht; simpl; [| discriminate].
    destruct (put _ env (field exp) _) as [env1 []] eqn:Hput; simpl; [| discriminate].
    intros H; inversion H; subst. rewrite app_nil_r.
    split; [eexists; split; [exact Hput | auto] | auto].
  - destruct (globals (moduleInformation (module inst)) !! Z.to_nat (kindIndex exp)) as [g|] eqn:Hg;
      [| discriminate].
    destruct (type g) eqn:Hty; simpl; try discriminate;
      (destruct (instance_globals inst !! Z.to_nat (kindIndex exp)) as [cell|] eqn:Hc;
       simpl; [| discriminate]);
      (destruct (put _ env (field exp) _) as [env1 []] eqn:Hput; simpl; [| discriminate]);
      intros H; inversion H; subst; rewrite app_nil_r;
      (split; [eexists; split; [exact Hput | exists g, cell; rewrite Hty; auto] | auto]).
Qed.

(** The start function recorded so far is a cell made for an export of
    the start index, at an address from [base] on. *)
Let startRecorded (instance : nat) (inst : JSWebAssemblyInstance) (start : Z) (base : nat)
    (cells : list WebAssemblyFunction) (recorded : option nat) : Prop :=
  match recorded with
  | Some f =>
      exists exp, cells !! f = Some (exportFunction instance (module inst) exp)
                  /\ kindIndex exp = start /\ (base <= f)%nat
  | None => True
  end.

Lemma foldM_linkExport_Normal instance inst hasStart start exports :
  forall env vm env' vm',
    foldM (linkExport put instance inst hasStart start) env exports vm = (Normal env', vm') ->
    functions vm'
    = functions vm ++ (exportFunction instance (module inst) <$> List.filter isFunctionExport exports)
    /\ instances vm' = instances vm
    /\ m_instance vm' = m_instance vm
    /\ m_moduleEnvironment vm' = m_moduleEnvironment vm
    /\ isSome (m_startFunction vm')
       = isSome (m_startFunction vm)
         || (hasStart && existsb (fun e => isFunctionExport e && (start =? kindIndex e)) exports)
    /\ (forall base,
          (base <= length (functions vm))%nat ->
          startRecorded instance inst start base (functions vm) (m_startFunction vm) ->
          startRecorded instance inst start base (functions vm') (m_startFunction vm')).
Proof.
  induction exports as [|exp rest IH]; intros env vm env' vm' Hrun; simpl in Hrun.
  - unfold mret, M_ret, ret in Hrun. inversion Hrun; subst. simpl.
    rewrite app_nil_r, andb_false_r, orb_false_r. auto 10.
  - unfold mbind, M_bind, bind in Hrun.
    destruct (linkExport put instance inst hasStart start env exp vm) as [[env1|e|why] vm1] eqn:Hstep;
      try discriminate.
    apply linkExport_Normal in Hstep as (_ & Hf1 & Hs1 & Hi1 & Hm1 & He1).
    apply IH in Hrun as (Hf & Hi & Hm & He & Hsome & Hrec).
    split; [| split; [| split; [| split; [| split]]]]; try congruence.
    + rewrite Hf, Hf1. simpl. destruct (isFunctionExport exp); simpl.
      * now rewrite <- app_assoc.
      * now rewrite app_nil_r.
    + rewrite Hsome, Hs1. simpl.
      destruct (isFunctionExport exp); simpl; [| reflexivity].
      destruct hasStart; simpl; [| now rewrite !orb_false_r].
      destruct (start =? kindIndex exp); simpl; [now rewrite orb_true_r | reflexivity].
    + intros base Hbase Hinit. apply Hrec.
      * rewrite Hf1, length_app. lia.
      * rewrite Hs1, Hf1. unfold startRecorded in *.
        destruct (isFunctionExport exp) eqn:Hfun; simpl.
        -- destruct hasStart; simpl.
           ++ destruct (Z.eqb_spec start (kindIndex exp)) as [Heq|Hne].
              ** exists exp. rewrite lookup_app_r by lia. rewrite Nat.sub_diag. simpl. auto.
              ** destruct (m_startFunction vm) as [f|]; [| exact I].
                 destruct Hinit as (exp0 & Hl & Hk & Hb). exists exp0.
                 split; [now apply lookup_app_l_Some | auto].
           ++ destruct (m_startFunction vm) as [f|]; [| exact I].
              destruct Hinit as (exp0 & Hl & Hk & Hb). exists exp0.
              split; [now apply lookup_app_l_Some | auto].
        -- rewrite app_nil_r. exact Hinit.
Qed.

Lemma exportValue_prefix instance inst cells cells' exp value :
  cells `prefix_of` cells' ->
  exportValue instance inst cells exp value ->
  exportValue instance inst cells' exp value.
Proof.
  intros Hp. unfold exportValue. destruct (kind exp); auto.
  intros (address & -> & Hl). exists address. split; [reflexivity |].
  now apply (prefix_lookup_Some cells cells').
Qed.

Lemma foldM_linkExport_env instance inst hasStart start exports :
  (forall symbolTable env name value env',
     put symbolTable env name value = (env', true) -> env' = <[name := value]> env) ->
  NoDup (field <$> exports) ->
  forall env vm env' vm',
    foldM (linkExport put instance inst hasStart start) env exports vm = (Normal env', vm') ->
    (forall exp, exp ∈ exports ->
       exists value, env' !! field exp = Some value
                     /\ exportValue instance inst (functions vm') exp value)
    /\ (forall name, name ∉ field <$> exports -> env' !! name = env !! name).
Proof.
  intros Hput. induction exports as [|exp rest IH]; intros Hnodup env vm env' vm' Hrun;
    simpl in Hrun.
  - unfold mret, M_ret, ret in Hrun. inversion Hrun; subst.
    split; [intros exp Hin; inversion Hin | auto].
  - rewrite fmap_cons in Hnodup. apply NoDup_cons in Hnodup as [Hfresh Hnodup].
    unfold mbind, M_bind, bind in Hrun.
    destruct (linkExport put instance inst hasStart start env exp vm) as [[env1|e|why] vm1] eqn:Hstep;
      try discriminate.
    apply linkExport_Normal in Hstep as ((value & Hp & Hv) & _).
    apply Hput in Hp. subst env1.
    pose proof (foldM_linkExport_Normal _ _ _ _ _ _ _ _ _ Hrun) as (Hf & _).
    destruct (IH Hnodup _ _ _ _ Hrun) as [Hin Hout].
    split.
    + intros exp0 Hin0. apply elem_of_cons in Hin0 as [->|Hin0]; [| now apply Hin].
      exists value. split.
      * rewrite (Hout (field exp) Hfresh). apply lookup_insert_eq.
      * apply exportValue_prefix with (functions vm1); [| exact Hv].
        rewrite Hf. now apply prefix_app_r.
    + intros name Hname. rewrite fmap_cons in Hname.
      apply not_elem_of_cons in Hname as [Hne Hname].
      rewrite (Hout name Hname). now apply lookup_insert_ne.
Qed.

Lemma foldM_linkExport_crash instance inst hasStart start exports exp :
  exp ∈ exports ->
  (forall env vm, isCrash (fst (linkExport put instance inst hasStart start env exp vm)) = true) ->
  forall env vm,
    isCrash (fst (foldM (linkExport put instance inst hasStart start) env exports vm)) = true.
Proof.
  intros Hin Hcrash. induction Hin as [exp rest|exp other rest Hin IH]; intros env vm; simpl.
  - specialize (Hcrash env vm). unfold mbind, M_bind, bind.
    destruct (linkExport put instance inst hasStart start env exp vm) as [[?|?|?] ?];
      simpl in *; congruence.
  - pose proof (linkExport_step put instance inst hasStart start env other vm) as Hstep.
    unfold mbind, M_bind, bind.
    destruct (linkExport put instance inst hasStart start env other vm) as [[env'|e|why] vm'];
      simpl in *; try easy.
    now apply IH.
Qed.

(** A [link] that returns, taken apart: the export loop, then the start
    function, then the members. *)
Lemma link_Normal instance vm vm' inst :
  instances vm !! instance = Some inst ->
  link put instance vm = (Normal tt, vm') ->
  exists env vm1,
    linkExports put instance inst vm = (Normal env, vm1)
    /\ m_moduleEnvironment vm' = Some env
    /\ m_instance vm' = Some instance
    /\ instances vm' = instances vm1
    /\ (functions vm', m_startFunction vm')
       = match startFunctionIndexSpace (moduleInformation (module inst)) with
         | Some start =>
             if isSome (m_startFunction vm1) then (functions vm1, m_startFunction vm1)
             else (functions vm1 ++ [startFunction instance (module inst) start],
                   Some (length (functions vm1)))
         | None => (functions vm1, m_startFunction vm1)
         end.
Proof.
  intros Hi. unfold link.
  erewrite bind_Normal by (apply derefInstance_run; eassumption).
  unfold mbind at 1. unfold M_bind, bind.
  destruct (linkExports put instance inst vm) as [[env|e|why] vm1]; try discriminate.
  unfold WebAssemblyFunction_create. unfold_M.
  destruct (startFunctionIndexSpace (moduleInformation (module inst))) as [start|]; simpl.
  - destruct (isSome (m_startFunction vm1)) eqn:Hs; simpl;
      (destruct (m_instance vm1); simpl; [discriminate |]);
      intros H; inversion H; subst; simpl; exists env, vm1; rewrite ?Hs; auto 10.
  - destruct (m_instance vm1); simpl; [discriminate |].
    intros H; inversion H; subst; simpl. exists env, vm1. auto 10.
Qed.

Lemma existsb_agree {A} (f g : A -> bool) l :
  (forall x, f x = g x) -> existsb f l = existsb g l.
Proof. intros H. induction l as [|x l IH]; simpl; [reflexivity | now rewrite H, IH]. Qed.

(** X12.  The wrappers [link] creates.  A [link] that returns, on a record
    without start function yet, has appended to the function cells exactly
    one cell per function export, in the order of the exports and under
    the export's name (two exports of one function get two cells), then
    one cell named "start" when the module has a start function that no
    export produced.  The instances are untouched. *)
Theorem link_creates_a_wrapper_per_function_export instance vm vm' inst :
  instances vm !! instance = Some inst ->
  m_startFunction vm = None ->
  link put instance vm = (Normal tt, vm') ->
  functions vm' = functions vm ++ linkedFunctions instance (module inst)
  /\ instances vm' = instances vm.
Proof.
  intros Hi Hnone Hlink.
  destruct (link_Normal instance vm vm' inst Hi Hlink) as (env & vm1 & Hloop & _ & _ & Hinst & Hend).
  unfold linkExports in Hloop.
  apply foldM_linkExport_Normal in Hloop as (Hf & Hi1 & _ & _ & Hsome & _).
  rewrite Hnone in Hsome. simpl in Hsome.
  split; [| congruence].
  unfold linkedFunctions. cbv zeta.
  destruct (startFunctionIndexSpace (moduleInformation (module inst))) as [start|] eqn:Hst;
    simpl in *.
  - assert (Hex : existsb (exportsStart (moduleInformation (module inst)))
                    (exports (moduleInformation (module inst)))
                  = isSome (m_startFunction vm1)).
    { rewrite Hsome. apply existsb_agree. intros e. unfold exportsStart. now rewrite Hst. }
    rewrite Hex. destruct (isSome (m_startFunction vm1)); inversion Hend as [[H0 H1]].
    + now rewrite H0, Hf, app_nil_r.
    + rewrite H0, Hf. now rewrite <- app_assoc.
  - inversion Hend as [[H0 H1]]. rewrite H0, Hf. now rewrite app_nil_r.
Qed.

(** X13.  The start function [link] records.  After a [link] that
    returns, on a record without start function yet: when the module has
    no start function, [m_startFunction] stays empty; when it has one,
    [m_startFunction] is the address of a cell created by this [link]
    whose entry points and signature are those of the start index and
    whose instance is the linked one. *)
Theorem link_records_the_start_function instance vm vm' inst :
  instances vm !! instance = Some inst ->
  m_startFunction vm = None ->
  link put instance vm = (Normal tt, vm') ->
  match startFunctionIndexSpace (moduleInformation (module inst)) with
  | None => m_startFunction vm' = None
  | Some start =>
      exists address cell,
        m_startFunction vm' = Some address
        /\ functions vm' !! address = Some cell
        /\ (length (functions vm) <= address)%nat
        /\ function_instance cell = instance
        /\ jsEntrypoint cell = jsEntrypointCalleeFromFunctionIndexSpace (module inst) start
        /\ wasmEntrypoint cell = wasmEntrypointCalleeFromFunctionIndexSpace (module inst) start
        /\ function_signature cell = signatureForFunctionIndexSpace (module inst) start
  end.
Proof.
  intros Hi Hnone Hlink.
  destruct (link_Normal instance vm vm' inst Hi Hlink) as (env & vm1 & Hloop & _ & _ & _ & Hend).
  unfold linkExports in Hloop. cbv zeta in Hloop.
  apply foldM_linkExport_Normal in Hloop as (Hf & _ & _ & _ & Hsome & Hrec).
  rewrite Hnone in Hsome. simpl in Hsome.
  specialize (Hrec (length (functions vm)) ltac:(lia)). rewrite Hnone in Hrec.
  specialize (Hrec I).
  destruct (startFunctionIndexSpace (moduleInformation (module inst))) as [start|] eqn:Hst;
    simpl in *.
  - destruct (m_startFunction vm1) as [f|] eqn:Hs1; simpl in Hend; inversion Hend; subst.
    + destruct Hrec as (exp & Hl & Hk & Hb). rewrite H1.
      exists f, (exportFunction instance (module inst) exp).
      rewrite H0. split; [reflexivity | split; [exact Hl | split; [exact Hb |]]].
      unfold exportFunction. simpl. rewrite Hk. auto.
    + exists (length (functions vm1)), (startFunction instance (module inst) start).
      rewrite H0. rewrite lookup_app_r by lia. rewrite Nat.sub_diag. simpl.
      split; [exact H1 | split; [reflexivity | split; [| auto]]].
      rewrite Hf, length_app. lia.
  - destruct (m_startFunction vm1); [discriminate |].
    inversion Hend as [[H0 H1]]. congruence.
Qed.

(** X14.  Exports that cannot be realized.  When the module exports a
    table or a memory that the instance does not have, or a global whose
    type is none of i32, f32 and f64, or when the put of an export into the
    module environment fails, [link] aborts the process. *)
Theorem link_aborts_on_an_unrealizable_export instance vm inst exp :
  instances vm !! instance = Some inst ->
  exp ∈ exports (moduleInformation (module inst)) ->
  unrealizable inst exp
  \/ (forall env value, snd (put (exportSymbolTable (module inst)) env (field exp) value) = false) ->
  isCrash (fst (link put instance vm)) = true.
Proof.
  intros Hi Hin Hbad.
  assert (Hstep : forall hasStart start env s,
            isCrash (fst (linkExport put instance inst hasStart start env exp s)) = true).
  { intros hasStart start env s.
    unfold linkExport, loadGlobal, WebAssemblyFunction_create. unfold_M.
    destruct Hbad as [Hbad|Hbad]; unfold unrealizable in *.
    - destruct (kind exp); simpl; try contradiction.
      + now rewrite Hbad.
      + now rewrite Hbad.
      + destruct Hbad as (g & -> & [-> | ->]); reflexivity.
    - destruct (kind exp); simpl.
      + destruct (kindIndex exp <? importCount (module inst)); [reflexivity |].
        destruct (hasStart && (start =? kindIndex exp)); simpl;
          match goal with
          | |- context [put ?t ?e ?n ?v] =>
              specialize (Hbad e v); destruct (put t e n v) as [? []]; simpl in *; congruence
          end.
      + destruct (isSome (table inst)); simpl; [| reflexivity].
        match goal with
        | |- context [put ?t ?e ?n ?v] =>
            specialize (Hbad e v); destruct (put t e n v) as [? []]; simpl in *; congruence
        end.
      + destruct (isSome (instance_memory inst)); simpl; [| reflexivity].
        match goal with
        | |- context [put ?t ?e ?n ?v] =>
            specialize (Hbad e v); destruct (put t e n v) as [? []]; simpl in *; congruence
        end.
      + destruct (globals (moduleInformation (module inst)) !! Z.to_nat (kindIndex exp)) as [g|];
          [| reflexivity].
        destruct (type g); simpl; try reflexivity;
          (destruct (instance_globals inst !! Z.to_nat (kindIndex exp)); simpl; [| reflexivity]);
          match goal with
          | |- context [put ?t ?e ?n ?v] =>
              specialize (Hbad e v); destruct (put t e n v) as [? []]; simpl in *; congruence
          end. }
  unfold link. erewrite bind_Normal by (apply derefInstance_run; eassumption).
  pose proof (foldM_linkExport_crash instance inst
                (isSome (startFunctionIndexSpace (moduleInformation (module inst))))
                (default 0 (startFunctionIndexSpace (moduleInformation (module inst))))
                _ exp Hin (Hstep _ _) ∅ vm) as Hloop.
  fold (linkExports put instance inst) in Hloop.
  unfold mbind at 1. unfold M_bind, bind.
  destruct (linkExports put instance inst vm) as [[?|?|?] ?]; simpl in *; congruence.
Qed.

(** X15.  The module environment [link] builds.  Let the put write the
    slot it is given, and let the export names be distinct.  After a
    [link] that returns, [m_moduleEnvironment] binds every export name to
    the value of its export (the function cell made for it, the table or
    memory object of the instance, the number read from the global) and
    binds no other name. *)
Theorem link_binds_every_export instance vm vm' inst :
  (forall symbolTable env name value env',
     put symbolTable env name value = (env', true) -> env' = <[name := value]> env) ->
  instances vm !! instance = Some inst ->
  NoDup (field <$> exports (moduleInformation (module inst))) ->
  link put instance vm = (Normal tt, vm') ->
  exists env,
    m_moduleEnvironment vm' = Some env
    /\ (forall exp, exp ∈ exports (moduleInformation (module inst)) ->
          exists value, env !! field exp = Some value
                        /\ exportValue instance inst (functions vm') exp value)
    /\ (forall name, is_Some (env !! name) ->
          name ∈ field <$> exports (moduleInformation (module inst))).
Proof.
  intros Hput Hi Hnodup Hlink.
  destruct (link_Normal instance vm vm' inst Hi Hlink) as (env & vm1 & Hloop & Henv & _ & _ & Hend).
  unfold linkExports in Hloop. cbv zeta in Hloop.
  destruct (foldM_linkExport_env instance inst _ _ _ Hput Hnodup _ _ _ _ Hloop) as [Hin Hout].
  assert (Hprefix : functions vm1 `prefix_of` functions vm').
  { destruct (startFunctionIndexSpace (moduleInformation (module inst)));
      [destruct (isSome (m_startFunction vm1)) |]; inversion Hend; subst;
      rewrite ?H0; try reflexivity. now apply prefix_app_r. }
  exists env. split; [exact Henv | split].
  - intros exp Hexp. destruct (Hin exp Hexp) as (value & Hl & Hv).
    exists value. split; [exact Hl |]. now apply exportValue_prefix with (functions vm1).
  - intros name [value Hl].
    destruct (decide (name ∈ field <$> exports (moduleInformation (module inst)))) as [Hyes|Hno];
      [exact Hyes |].
    rewrite (Hout name Hno), lookup_empty in Hl. discriminate.
Qed.

End LinkingCoverage.

(** ** Runs of the further properties on the sample inputs *)

Section AllocatorCoverageRuns.

Import ExecutableAllocator AllocatorExamples.

Lemma newNumPages_witness :
  245 <= newNumPages limited 245
  /\ (newNumPages limited 245 * 4096) mod 65536 = 0
  /\ newNumPages limited 245 * 4096 < 245 * 4096 + 65536.
Proof.
  apply (newNumPages_rounds_up_to_large_chunks limited 245 16); vm_compute; congruence.
Defined.

Lemma allocateNewSpace_appends_witness :
  fst (allocateNewSpace limited os 0 245 fresh) = Normal (256, Some (2 ^ 32))
  /\ allocators (snd (allocateNewSpace limited os 0 245 fresh)) !! 0%nat
     = Some (appendReservation {| base := 2 ^ 32; size := 1048576 |} emptyAllocator)
  /\ bytesAllocatedByAllAllocators (snd (allocateNewSpace limited os 0 245 fresh))
     = bytesAllocatedByAllAllocators fresh.
Proof.
  destruct (allocateNewSpace_appends_reservation limited os 0%nat 245 fresh emptyAllocator (2 ^ 32))
    as (Hfst & Hthis & _ & _ & _ & Hallocated & _).
  - reflexivity.
  - vm_compute. reflexivity.
  - reflexivity.
  - split; [exact Hfst | split; [exact Hthis | exact Hallocated]].
Defined.

Lemma allocateNewSpace_never_null_witness :
  (forall n, fst (allocateNewSpace unlimited os 0 245 (full 5000000)) <> Normal (n, None))
  /\ fst (allocateNewSpace unlimited os 0 245 (full 5000000)) = Normal (256, Some (2 ^ 32))
  /\ fst (allocateNewSpace unlimited (fun _ _ => None) 0 245 (full 5000000))
     = Crash "RELEASE_ASSERT(reservation)".
Proof.
  split; [| split].
  - apply (allocateNewSpace_never_null_without_limit unlimited os 0%nat 245 (full 5000000)
             {| m_bytesAllocated := 5000000; m_bytesCommitted := 5000000;
                m_freeSpace := []; reservations := [] |});
      reflexivity.
  - apply (allocateNewSpace_never_null_without_limit unlimited os 0%nat 245 (full 5000000)
             {| m_bytesAllocated := 5000000; m_bytesCommitted := 5000000;
                m_freeSpace := []; reservations := [] |});
      reflexivity.
  - apply (allocateNewSpace_never_null_without_limit unlimited (fun _ _ => None) 0%nat 245
             (full 5000000)
             {| m_bytesAllocated := 5000000; m_bytesCommitted := 5000000;
                m_freeSpace := []; reservations := [] |});
      reflexivity.
Defined.

Lemma destroy_witness :
  fst (destroy 0 atLimit) = Normal [{| base := 2 ^ 32; size := 1048576 |}]
  /\ allocators (snd (destroy 0 atLimit)) !! 0%nat = None
  /\ bytesAllocatedByAllAllocators atLimit
     = size_t (bytesAllocatedByAllAllocators (snd (destroy 0 atLimit)) + 1000000).
Proof.
  destruct (destroy_unregisters_and_releases 0%nat atLimit
              {| m_bytesAllocated := 1000000; m_bytesCommitted := 0;
                 m_freeSpace := [(4295967296, 48576)];
                 reservations := [{| base := 4294967296; size := 1048576 |}] |})
    as (Hfst & Hgone & _ & Hallocated & _).
  - reflexivity.
  - split; [exact Hfst | split; [exact Hgone | exact Hallocated]].
Defined.

Lemma underMemoryPressure_witness :
  underMemoryPressure unlimited (full 900000) = false
  /\ double_le (Finite 2) (memoryPressureMultiplier limited (full 500001) 0) = true
  /\ double_le (memoryPressureMultiplier limited (full 500000) 0) (Finite 2) = true.
Proof.
  split; [| split].
  - apply (underMemoryPressure_agrees_with_multiplier unlimited (full 900000)). reflexivity.
  - apply (underMemoryPressure_agrees_with_multiplier limited (full 500001)) with (limit := 1000000);
      [reflexivity | lia | reflexivity].
  - apply (underMemoryPressure_agrees_with_multiplier limited (full 500000)) with (limit := 1000000);
      [reflexivity | lia | reflexivity].
Defined.

Lemma memoryPressureMultiplier_closed_form_witness :
  memoryPressureMultiplier limited (full 1) 999999 = Infinity
  /\ memoryPressureMultiplier limited (full 1) 499999 = Finite (Qmake 1000000 500000).
Proof.
  split.
  - apply (memoryPressureMultiplier_closed_form limited (full 1) 1000000 999999);
      [reflexivity | lia | lia | vm_compute; reflexivity | vm_compute; congruence].
  - apply (memoryPressureMultiplier_closed_form limited (full 1) 1000000 499999);
      [reflexivity | lia | lia | vm_compute; reflexivity | vm_compute; reflexivity].
Defined.

End AllocatorCoverageRuns.

Section ModuleRecordCoverageRuns.

Import Wasm WebAssemblyModuleRecord ModuleRecordExamples.

Lemma slotPut_writes symbolTable env name value env' :
  slotPut symbolTable env name value = (env', true) -> env' = <[name := value]> env.
Proof. unfold slotPut. case_bool_decide; intros Hput; inversion Hput; reflexivity. Qed.

Lemma evaluateElement_populates_witness :
  fst (evaluateElement 0 tableOnly threeAtFive (unlinked (sampleInstance tableOnly 8 12)))
  = Normal tt
  /\ functions (snd (evaluateElement 0 tableOnly threeAtFive
                       (unlinked (sampleInstance tableOnly 8 12))))
     = functions (unlinked (sampleInstance tableOnly 8 12))
       ++ (tableFunction 0 tableOnly <$> functionIndices threeAtFive)
  /\ memoryOf (snd (evaluateElement 0 tableOnly threeAtFive
                      (unlinked (sampleInstance tableOnly 8 12)))) 0
     = memoryOf (unlinked (sampleInstance tableOnly 8 12)) 0.
Proof.
  pose proof (evaluateElement_populates_table 0%nat tableOnly threeAtFive
                (unlinked (sampleInstance tableOnly 8 12)) (sampleInstance tableOnly 8 12)
                (replicate 8 None)) as Hrun.
  cbv zeta in Hrun.
  assert (Hfits : offset threeAtFive + Z.of_nat (length (functionIndices threeAtFive))
                  <= Z.of_nat (length (replicate 8 (@None nat)))) by (vm_compute; congruence).
  assert (Hoffset : uint32_t (offset threeAtFive)) by (vm_compute; split; congruence).
  specialize (Hrun eq_refl eq_refl eq_refl Hoffset eq_refl Hfits eq_refl).
  destruct Hrun as (Hfst & Hfunctions & _ & Hmemory).
  split; [exact Hfst | split; [exact Hfunctions | exact Hmemory]].
Defined.

Lemma evaluate_extends_witness :
  extends (linked (sampleInstance partial 8 12))
    (snd (evaluate idle (linked (sampleInstance partial 8 12))))
  /\ functions (snd (evaluateData 0 (linked (sampleInstance partial 8 12))))
     = functions (linked (sampleInstance partial 8 12)).
Proof.
  destruct (evaluate_extends_the_store idle (linked (sampleInstance partial 8 12)))
    as (Hextends & _ & Hdata).
  - intros function s. apply extends_refl.
  - split; [exact Hextends | apply (Hdata 0%nat)].
Defined.

Lemma evaluateData_copies_witness :
  fst (evaluateData 0 (unlinked (sampleInstance overlapping 8 6))) = Normal tt
  /\ memoryOf (snd (evaluateData 0 (unlinked (sampleInstance overlapping 8 6)))) 0
     = Some [Byte.x01; Byte.x02; Byte.x0a; Byte.x0b; Byte.x00; Byte.x00].
Proof.
  pose proof (evaluateData_copies_segments_in_order 0%nat
                (unlinked (sampleInstance overlapping 8 6)) (sampleInstance overlapping 8 6)
                (replicate 6 Byte.x00)) as Hrun.
  cbv zeta in Hrun.
  assert (Hwf : Forall wellFormedSegment
                  (data (moduleInformation (module (sampleInstance overlapping 8 6)))))
    by (repeat constructor; vm_compute; congruence).
  specialize (Hrun eq_refl eq_refl eq_refl Hwf).
  destruct Hrun as [Hfits _].
  destruct (Hfits eq_refl) as (Hfst & Hmemory & _).
  split; [exact Hfst | exact Hmemory].
Defined.

Lemma evaluate_start_witness :
  evaluate throwing (linked (sampleInstance started 8 12))
  = (Throw (ScriptError "trap"), linked (sampleInstance started 8 12))
  /\ evaluate throwing (linked (sampleInstance twice 8 12))
     = (Normal jsUndefined, snd (evaluate idle (linked (sampleInstance twice 8 12)))).
Proof.
  split.
  - apply (evaluate_runs_the_start_function_last throwing
             (linked (sampleInstance started 8 12)) 0%nat
             (linked (sampleInstance started 8 12)) (linked (sampleInstance started 8 12)));
      vm_compute; reflexivity.
  - apply (evaluate_runs_the_start_function_last throwing
             (linked (sampleInstance twice 8 12)) 0%nat
             (snd (evaluateElements 0 (linked (sampleInstance twice 8 12))))
             (snd (evaluate idle (linked (sampleInstance twice 8 12)))));
      vm_compute; reflexivity.
Defined.

Lemma link_creates_witness :
  function_name <$> functions (snd (link slotPut 0%nat (unlinked (sampleInstance twice 8 12))))
  = ["a"; "b"]
  /\ function_name <$> functions (snd (link slotPut 0%nat (unlinked (sampleInstance started 8 12))))
     = ["run"; "start"].
Proof.
  split.
  - rewrite (proj1 (link_creates_a_wrapper_per_function_export slotPut 0%nat
                      (unlinked (sampleInstance twice 8 12))
                      (snd (link slotPut 0%nat (unlinked (sampleInstance twice 8 12))))
                      (sampleInstance twice 8 12) eq_refl eq_refl
                      ltac:(vm_compute; reflexivity))).
    reflexivity.
  - rewrite (proj1 (link_creates_a_wrapper_per_function_export slotPut 0%nat
                      (unlinked (sampleInstance started 8 12))
                      (snd (link slotPut 0%nat (unlinked (sampleInstance started 8 12))))
                      (sampleInstance started 8 12) eq_refl eq_refl
                      ltac:(vm_compute; reflexivity))).
    reflexivity.
Defined.

Lemma link_records_start_witness :
  (exists address cell,
     m_startFunction (linked (sampleInstance started 8 12)) = Some address
     /\ functions (linked (sampleInstance started 8 12)) !! address = Some cell
     /\ (0 <= address)%nat
     /\ function_instance cell = 0%nat
     /\ jsEntrypoint cell = 1
     /\ wasmEntrypoint cell = 1
     /\ function_signature cell = nullary)
  /\ m_startFunction (linked (sampleInstance twice 8 12)) = None.
Proof.
  split.
  - apply (link_records_the_start_function slotPut 0%nat
             (unlinked (sampleInstance started 8 12)) (linked (sampleInstance started 8 12))
             (sampleInstance started 8 12));
      vm_compute; reflexivity.
  - apply (link_records_the_start_function slotPut 0%nat
             (unlinked (sampleInstance twice 8 12)) (linked (sampleInstance twice 8 12))
             (sampleInstance twice 8 12));
      vm_compute; reflexivity.
Defined.

Lemma link_aborts_witness :
  isCrash (fst (link slotPut 0%nat (unlinked tableless))) = true
  /\ isCrash (fst (link (fun _ env _ _ => (env, false)) 0%nat (unlinked fourKindsInstance))) = true.
Proof.
  split.
  - apply (link_aborts_on_an_unrealizable_export slotPut 0%nat (unlinked tableless) tableless
             {| field := "t"; kind := Table; kindIndex := 0 |}).
    + reflexivity.
    + vm_compute. set_solver.
    + left. reflexivity.
  - apply (link_aborts_on_an_unrealizable_export (fun _ env _ _ => (env, false)) 0%nat
             (unlinked fourKindsInstance) fourKindsInstance (functionExport "f" 0)).
    + reflexivity.
    + apply list_elem_of_here.
    + right. reflexivity.
Defined.

Lemma link_binds_witness :
  exists env,
    m_moduleEnvironment (snd (link slotPut 0%nat (unlinked fourKindsInstance))) = Some env
    /\ (forall exp, exp ∈ exports (moduleInformation fourKinds) ->
          exists value,
            env !! field exp = Some value
            /\ exportValue 0 fourKindsInstance
                 (functions (snd (link slotPut 0%nat (unlinked fourKindsInstance)))) exp value)
    /\ (forall name, is_Some (env !! name) ->
          name ∈ field <$> exports (moduleInformation fourKinds)).
Proof.
  apply (link_binds_every_export slotPut 0%nat (unlinked fourKindsInstance)
           (snd (link slotPut 0%nat (unlinked fourKindsInstance))) fourKindsInstance).
  - exact slotPut_writes.
  - reflexivity.
  - apply (bool_decide_unpack _). vm_compute. reflexivity.
  - vm_compute. reflexivity.
Defined.

End ModuleRecordCoverageRuns.
